(** * Session lifecycle of the Playwright tool server (mcp_tools.py)

    A shallow embedding of [PlayWrightManager] (the singleton that owns the
    engine / browser / context / page chain), of the tool handlers as far as
    they touch the manager, and of the process clean-up tool
    [kill_all_chrome_instances].

    Python objects returned by Playwright are modelled by handles (natural
    numbers naming the object); every call into Playwright is recorded in a
    trace, and an oracle decides, call by call, whether it returns or
    raises. *)

From Stdlib Require Import List String Ascii Bool Arith Lia.
Import ListNotations.
Open Scope string_scope.
Open Scope list_scope.
Open Scope nat_scope.

Set Implicit Arguments.

(** ** Values *)

(** A handle names one Playwright object (engine, browser, context or
    page).  Playwright objects define neither [__bool__] nor [__len__],
    so a handle is always truthy and only [None] is falsy. *)
Definition Handle := nat.

(** [Literal["chromium", "firefox", "webkit"]] *)
Inductive BrowserType := chromium | firefox | webkit.

(** The viewport dictionary [{"width": w, "height": h}]. *)
Record Viewport := { width : nat; height : nat }.

(** An instance attribute: it may not exist at all ([Unset], reading it
    raises [AttributeError]) or hold a value. *)
Inductive Attr (A : Type) :=
| Unset
| Val (a : A).
Arguments Unset {A}.

(** Python truthiness of an optional object. *)
Definition truthy (h : option Handle) : bool :=
  match h with
  | Some _ => true
  | None => false
  end.

(** ** The outside world *)

(** The awaited calls into Playwright made by the manager. *)
Inductive Call :=
| EngineStart                                       (* pw.async_playwright().start() *)
| BrowserLaunch (engine : Handle) (kind : BrowserType) (hl : bool)
                                                    (* getattr(playwright, kind).launch(headless=hl) *)
| ContextNew (br : Handle) (vp : option Viewport)   (* browser.new_context([viewport=vp]) *)
| PageNew (ctx : Handle)                            (* context.new_page() *)
| ContextClose (ctx : Handle)                       (* context.close() *)
| BrowserClose (br : Handle)                        (* browser.close() *)
| EngineStop (engine : Handle)                      (* playwright.stop() *)
| PageClose (pg : Handle).                          (* page.close() *)

(** [oracle n] tells whether the [n]-th call into Playwright returns;
    [trace] lists the calls attempted so far, oldest first. *)
Record World := { oracle : nat -> bool; trace : list Call }.

Inductive Exn :=
| CallFailed (c : Call)          (* the Playwright call raised *)
| AttributeError (attr : string). (* attribute missing on the receiver *)

Inductive Outcome (A : Type) :=
| Ret (a : A)
| Raise (e : Exn).
Arguments Raise {A}.

(** ** State-and-exception monad

    A computation threads a state and either returns or raises; the state
    reached when it raises is kept, as Python keeps the assignments made
    before the exception. *)
Definition ST (S A : Type) := S -> Outcome A * S.

Definition ret {S A} (a : A) : ST S A := fun s => (Ret a, s).

Definition raise {S A} (e : Exn) : ST S A := fun s => (Raise e, s).

Definition bind {S A B} (m : ST S A) (k : A -> ST S B) : ST S B :=
  fun s =>
    match m s with
    | (Ret a, s') => k a s'
    | (Raise e, s') => (Raise e, s')
    end.

Definition modify {S} (f : S -> S) : ST S unit := fun s => (Ret tt, f s).

Declare Scope st_scope.
Delimit Scope st_scope with st.
Notation "x <- m ;; k" := (bind m (fun x => k))
  (at level 100, m at next level, right associativity) : st_scope.
Notation "m ;; k" := (bind m (fun _ => k))
  (at level 100, right associativity) : st_scope.
Open Scope st_scope.

(** ** PlayWrightManager *)

Record Manager := {
  initialized : bool;
  browser_type : BrowserType;
  headless : bool;
  viewport : Viewport;
  playwright : option Handle;
  browser : option Handle;
  context : option Handle;
  page : Attr (option Handle)
}.

Definition set_playwright (v : option Handle) (m : Manager) : Manager :=
  {| initialized := initialized m; browser_type := browser_type m;
     headless := headless m; viewport := viewport m;
     playwright := v; browser := browser m; context := context m;
     page := page m |}.

Definition set_browser (v : option Handle) (m : Manager) : Manager :=
  {| initialized := initialized m; browser_type := browser_type m;
     headless := headless m; viewport := viewport m;
     playwright := playwright m; browser := v; context := context m;
     page := page m |}.

Definition set_context (v : option Handle) (m : Manager) : Manager :=
  {| initialized := initialized m; browser_type := browser_type m;
     headless := headless m; viewport := viewport m;
     playwright := playwright m; browser := browser m; context := v;
     page := page m |}.

Definition set_page (v : option Handle) (m : Manager) : Manager :=
  {| initialized := initialized m; browser_type := browser_type m;
     headless := headless m; viewport := viewport m;
     playwright := playwright m; browser := browser m; context := context m;
     page := Val v |}.

Definition set_browser_type (v : BrowserType) (m : Manager) : Manager :=
  {| initialized := initialized m; browser_type := v;
     headless := headless m; viewport := viewport m;
     playwright := playwright m; browser := browser m; context := context m;
     page := page m |}.

Definition set_headless (v : bool) (m : Manager) : Manager :=
  {| initialized := initialized m; browser_type := browser_type m;
     headless := v; viewport := viewport m;
     playwright := playwright m; browser := browser m; context := context m;
     page := page m |}.

(** The state a method of the manager runs in: the attributes of [self]
    and the outside world. *)
Record Session := { self : Manager; env : World }.

Definition Method := ST Session.

(** [await c]: the call is appended to the trace; it returns the new
    object (named by the position of the call in the trace, hence
    distinct from every earlier object) or raises. *)
Definition await (c : Call) : Method Handle :=
  fun s =>
    let w := env s in
    let n := List.length (trace w) in
    let s' := {| self := self s;
                 env := {| oracle := oracle w; trace := trace w ++ [c] |} |} in
    if oracle w n then (Ret n, s') else (Raise (CallFailed c), s').

Definition assign (f : Manager -> Manager) : Method unit :=
  modify (fun s => {| self := f (self s); env := env s |}).

Definition read {A} (f : Manager -> A) : Method A :=
  fun s => (Ret (f (self s)), s).

(** [self.page]: [AttributeError] when the attribute was never assigned. *)
Definition read_page : Method (option Handle) :=
  fun s =>
    match page (self s) with
    | Val v => (Ret v, s)
    | Unset => (Raise (AttributeError "page"), s)
    end.

(** The receiver of a method call: calling a method on [None] raises
    [AttributeError]. *)
Definition receiver (attr : string) (h : option Handle) : Method Handle :=
  match h with
  | Some x => ret x
  | None => raise (AttributeError attr)
  end.

Definition when {S} (b : bool) (m : ST S unit) : ST S unit :=
  if b then m else ret tt.

(** [PlayWrightManager.ensure_browser]; the result is the value of
    [self.page] at the [return]. *)
Definition ensure_browser : Method (option Handle) :=
  pw <- read playwright ;;
  when (negb (truthy pw))
    (e <- await EngineStart ;;
     assign (set_playwright (Some e))) ;;
  br <- read browser ;;
  when (negb (truthy br))
    (pw <- read playwright ;;
     e <- receiver "playwright" pw ;;
     kind <- read browser_type ;;
     hl <- read headless ;;
     b <- await (BrowserLaunch e kind hl) ;;
     assign (set_browser (Some b)) ;;
     vp <- read viewport ;;
     c <- await (ContextNew b (Some vp)) ;;
     assign (set_context (Some c)) ;;
     p <- await (PageNew c) ;;
     assign (set_page (Some p))) ;;
  ctx <- read context ;;
  when (negb (truthy ctx))
    (br <- read browser ;;
     b <- receiver "browser" br ;;
     c <- await (ContextNew b None) ;;
     assign (set_context (Some c))) ;;
  pg <- read_page ;;
  when (negb (truthy pg))
    (ctx <- read context ;;
     c <- receiver "context" ctx ;;
     p <- await (PageNew c) ;;
     assign (set_page (Some p))) ;;
  read_page.

(** [PlayWrightManager.close] *)
Definition close : Method unit :=
  ctx <- read context ;;
  match ctx with
  | Some c => await (ContextClose c) ;; assign (set_context None)
  | None => ret tt
  end ;;
  br <- read browser ;;
  match br with
  | Some b => await (BrowserClose b) ;; assign (set_browser None)
  | None => ret tt
  end ;;
  pw <- read playwright ;;
  match pw with
  | Some e => await (EngineStop e) ;; assign (set_playwright None)
  | None => ret tt
  end ;;
  pg <- read_page ;;
  match pg with
  | Some p => await (PageClose p) ;; assign (set_page None)
  | None => ret tt
  end.

(** ** The class, the module global and the handlers *)

(** An object of class [PlayWrightManager]: as [__new__] leaves it (only
    [initialized = False] exists) or after [__init__] has run on it. *)
Inductive Obj :=
| Fresh
| Built (m : Manager).

(** [heap] holds the manager objects ever allocated, by address;
    [_instance] is the class attribute [PlayWrightManager._instance] and
    [pw_manager] the module global. *)
Record Program := {
  heap : list Obj;
  _instance : option nat;
  pw_manager : option nat;
  world : World
}.

Fixpoint store (l : list Obj) (r : nat) (o : Obj) : list Obj :=
  match l, r with
  | [], _ => []
  | _ :: t, O => o :: t
  | x :: t, S r' => x :: store t r' o
  end.

(** [PlayWrightManager.__new__] *)
Definition __new__ : ST Program nat :=
  fun st =>
    match _instance st with
    | None =>
        let r := List.length (heap st) in
        (Ret r, {| heap := heap st ++ [Fresh]; _instance := Some r;
                   pw_manager := pw_manager st; world := world st |})
    | Some r => (Ret r, st)
    end.

(** The attributes [__init__] leaves on an object. *)
Definition init_attrs (kind : BrowserType) (hl : bool) (vp : Viewport)
    (o : Obj) : Manager :=
  match o with
  | Fresh =>
      {| initialized := true; browser_type := kind; headless := hl;
         viewport := vp; playwright := None; browser := None;
         context := None; page := Unset |}
  | Built m =>
      let m1 :=
        if negb (initialized m) then
          {| initialized := true; browser_type := kind; headless := hl;
             viewport := vp; playwright := playwright m;
             browser := browser m; context := context m; page := page m |}
        else m in
      set_context None (set_browser None (set_playwright None m1))
  end.

(** [PlayWrightManager.__init__] *)
Definition __init__ (r : nat) (kind : BrowserType) (hl : bool)
    (vp : Viewport) : ST Program unit :=
  fun st =>
    match nth_error (heap st) r with
    | Some o =>
        (Ret tt, {| heap := store (heap st) r (Built (init_attrs kind hl vp o));
                    _instance := _instance st; pw_manager := pw_manager st;
                    world := world st |})
    | None => (Raise (AttributeError "initialized"), st)
    end.

(** The expression [PlayWrightManager(kind, hl, vp)]. *)
Definition PlayWrightManager (kind : BrowserType) (hl : bool)
    (vp : Viewport) : ST Program nat :=
  r <- __new__ ;;
  __init__ r kind hl vp ;;
  ret r.

(** The default arguments of [__init__]. *)
Definition default_viewport : Viewport := {| width := 1920; height := 1080 |}.

(** Run a method with [self] bound to the object at address [r]. *)
Definition invoke {A} (r : nat) (m : Method A) : ST Program A :=
  fun st =>
    match nth_error (heap st) r with
    | Some (Built me) =>
        let '(o, s') := m {| self := me; env := world st |} in
        (o, {| heap := store (heap st) r (Built (self s'));
               _instance := _instance st; pw_manager := pw_manager st;
               world := env s' |})
    | _ => (Raise (AttributeError "self"), st)
    end.

Definition set_global (v : option nat) : ST Program unit :=
  modify (fun st => {| heap := heap st; _instance := _instance st;
                       pw_manager := v; world := world st |}).

(** An attribute access or method call on the global [pw_manager]:
    [AttributeError] when the global is [None]. *)
Definition global_manager : ST Program nat :=
  fun st =>
    match pw_manager st with
    | Some r => (Ret r, st)
    | None => (Raise (AttributeError "pw_manager"), st)
    end.

(** The state of the module once imported: [pw_manager = PlayWrightManager()]. *)
Definition module_import (w : World) : Outcome nat * Program :=
  (r <- PlayWrightManager chromium false default_viewport ;;
   set_global (Some r) ;;
   ret r)
  {| heap := []; _instance := None; pw_manager := None; world := w |}.

(** The handlers, as far as they touch the manager: the operation
    performed on the page once it is obtained and the message returned do
    not involve the manager and are left out. *)

(** [browser_navigate] *)
Definition browser_navigate (url : string) : ST Program unit :=
  if String.eqb url "" then ret tt
  else
    g <- (fun st => (Ret (pw_manager st), st)) ;;
    r <- match g with
         | None =>
             r <- PlayWrightManager chromium false default_viewport ;;
             set_global (Some r) ;;
             ret r
         | Some r => ret r
         end ;;
    invoke r ensure_browser ;;
    ret tt.

(** [browser_close] *)
Definition browser_close : ST Program unit :=
  g <- (fun st => (Ret (pw_manager st), st)) ;;
  match g with
  | None => ret tt
  | Some r => invoke r close ;; set_global None
  end.

Definition is_chromium (k : BrowserType) : bool :=
  match k with
  | chromium => true
  | _ => false
  end.

(** [browser_save_as_pdf], up to the assignments: the session is closed
    unless it is a headless [chromium]. *)
Definition pdf_prepare : ST Program nat :=
  r <- global_manager ;;
  kind <- invoke r (read browser_type) ;;
  hl <- invoke r (read headless) ;;
  when (negb (is_chromium kind) || negb hl) (invoke r close) ;;
  ret r.

(** [browser_save_as_pdf] *)
Definition browser_save_as_pdf : ST Program unit :=
  r <- pdf_prepare ;;
  invoke r (assign (set_browser_type chromium)) ;;
  invoke r (assign (set_headless false)) ;;
  invoke r ensure_browser ;;
  ret tt.

(** Every other handler that works on the page ([browser_fill],
    [browser_click], [get_page_title], ...): it starts with
    [page = await pw_manager.ensure_browser()]. *)
Definition page_handler : ST Program unit :=
  r <- global_manager ;;
  invoke r ensure_browser ;;
  ret tt.

(** A call of a method on the singleton held in [_instance]. *)
Definition on_instance {A} (m : Method A) : ST Program A :=
  fun st =>
    match _instance st with
    | Some r => invoke r m st
    | None => (Raise (AttributeError "_instance"), st)
    end.

(** What can happen to the program after the import: the class is
    instantiated, a method is called on the singleton, or a tool is
    invoked.  The handlers that call other handlers ([login_to_github],
    [create_github_repo]) are sequences of these. *)
Inductive Op :=
| OpConstruct (kind : BrowserType) (hl : bool) (vp : Viewport)
| OpEnsureBrowser
| OpClose
| ToolNavigate (url : string)
| ToolClose
| ToolSaveAsPdf
| ToolPage
| ToolKillChrome.

Definition discard {S A} (m : ST S A) : ST S unit := m ;; ret tt.

Definition perform (op : Op) : ST Program unit :=
  match op with
  | OpConstruct kind hl vp => discard (PlayWrightManager kind hl vp)
  | OpEnsureBrowser => discard (on_instance ensure_browser)
  | OpClose => on_instance close
  | ToolNavigate url => browser_navigate url
  | ToolClose => browser_close
  | ToolSaveAsPdf => browser_save_as_pdf
  | ToolPage => page_handler
  | ToolKillChrome => ret tt     (* kill_all_chrome_instances never reads pw_manager *)
  end.

(** The operations of the class itself. *)
Definition session_op (op : Op) : bool :=
  match op with
  | OpConstruct _ _ _ | OpEnsureBrowser | OpClose => true
  | _ => false
  end.

(** An exception raised by an operation ends that operation only; the
    next one runs on the state it left. *)
Fixpoint run (ops : list Op) (st : Program) : Program :=
  match ops with
  | [] => st
  | op :: rest => run rest (snd (perform op st))
  end.

Definition config (m : Manager) : BrowserType * bool * Viewport :=
  (browser_type m, headless m, viewport m).

(** The configuration stored on the singleton, if it exists. *)
Definition singleton_config (st : Program) : option (BrowserType * bool * Viewport) :=
  match _instance st with
  | Some r =>
      match nth_error (heap st) r with
      | Some (Built m) => Some (config m)
      | _ => None
      end
  | None => None
  end.

Definition empty_program (w : World) : Program :=
  {| heap := []; _instance := None; pw_manager := None; world := w |}.

(** ** Notions used by the statements *)

(** The calls made between two states of the world. *)
Definition new_calls (s s' : Session) : list Call :=
  skipn (List.length (trace (env s))) (trace (env s')).

(** The page handle, [None] also when the attribute does not exist. *)
Definition page_handle (m : Manager) : option Handle :=
  match page m with
  | Val v => v
  | Unset => None
  end.

(** The ownership chain engine -> browser -> context -> page. *)
Definition chain (m : Manager) : Prop :=
  (context m <> None -> browser m <> None) /\
  (page_handle m <> None -> context m <> None) /\
  (browser m <> None -> playwright m <> None).

(** Every handle is [None]. *)
Definition torn_down (m : Manager) : Prop :=
  playwright m = None /\ browser m = None /\ context m = None /\
  page m = Val None.

(** All four handles are set. *)
Definition live (m : Manager) : Prop :=
  playwright m <> None /\ browser m <> None /\ context m <> None /\
  page_handle m <> None.

Definition step_of {A} (f : A -> Call) (h : option A) : list Call :=
  match h with
  | Some x => [f x]
  | None => []
  end.

(** The teardown order of the specification: context, browser, engine,
    page, a step being skipped when its handle is null. *)
Definition teardown_plan (m : Manager) : list Call :=
  step_of ContextClose (context m) ++ step_of BrowserClose (browser m) ++
  step_of EngineStop (playwright m) ++ step_of PageClose (page_handle m).

(** The handle a close or stop call works on is still stored. *)
Definition still_held (m : Manager) (c : Call) : Prop :=
  match c with
  | ContextClose h => context m = Some h
  | BrowserClose h => browser m = Some h
  | EngineStop h => playwright m = Some h
  | PageClose h => page m = Val (Some h)
  | _ => False
  end.

(** The attributes left by a teardown that stopped at the call [c]: the
    handles of the earlier steps are null, the others untouched. *)
Definition stopped_at (m : Manager) (c : Call) : Manager :=
  match c with
  | BrowserClose _ => set_context None m
  | EngineStop _ => set_browser None (set_context None m)
  | PageClose _ => set_playwright None (set_browser None (set_context None m))
  | _ => m
  end.

(** The oracle under which every call returns except the [k]-th. *)
Definition fails_at (k : nat) : nat -> bool := fun n => negb (Nat.eqb n k).

Definition always_ok : nat -> bool := fun _ => true.

(** ** Process clean-up: kill_all_chrome_instances *)

(** One entry of [psutil.process_iter(attrs=['pid', 'name', 'exe'])];
    psutil stores [None] for an attribute it could not read. *)
Record Process := { pid : nat; name : option string; exe : option string }.

(** What [process.terminate()] does: it returns, raises one of the two
    exceptions the loop body catches, or raises something else. *)
Inductive Terminated :=
| Signalled
| NoSuchProcess
| AccessDenied
| OtherError (msg : string).

(** [str.lower] on a character (strings are modelled as ASCII strings). *)
Definition lower_char (c : ascii) : ascii :=
  let n := nat_of_ascii c in
  if (65 <=? n) && (n <=? 90) then ascii_of_nat (n + 32) else c.

(** [str.lower] *)
Fixpoint lower (s : string) : string :=
  match s with
  | EmptyString => EmptyString
  | String c t => String (lower_char c) (lower t)
  end.

Fixpoint starts_with (p s : string) : bool :=
  match p, s with
  | EmptyString, _ => true
  | String a p', String b s' => Ascii.eqb a b && starts_with p' s'
  | String _ _, EmptyString => false
  end.

(** [p in s] on strings. *)
Fixpoint contains (p s : string) : bool :=
  starts_with p s ||
  match s with
  | EmptyString => false
  | String _ t => contains p t
  end.

(** [x and needle in x.lower()] for an attribute that may be [None] or
    the empty string. *)
Definition mentions (needle : string) (x : option string) : bool :=
  match x with
  | Some s => negb (String.eqb s "") && contains needle (lower s)
  | None => false
  end.

(** The condition of the [if] in the loop body. *)
Definition playwright_chrome (p : Process) : bool :=
  mentions "chrome" (name p) && mentions "playwright" (exe p).

(** The loop: the processes [terminate()] was called on, in order, and
    the message of the exception that ended the loop early, if any. *)
Fixpoint kill_loop (terminate : Process -> Terminated) (ps : list Process)
    : list Process * option string :=
  match ps with
  | [] => ([], None)
  | p :: rest =>
      if playwright_chrome p then
        match terminate p with
        | OtherError msg => ([p], Some msg)
        | _ => let (l, e) := kill_loop terminate rest in (p :: l, e)
        end
      else kill_loop terminate rest
  end.

(** [kill_all_chrome_instances]: the processes sent a terminate signal
    and the message returned. *)
Definition kill_all_chrome_instances (terminate : Process -> Terminated)
    (ps : list Process) : list Process * string :=
  match kill_loop terminate ps with
  | (l, None) =>
      (l, "All Chrome instances generated via Playwright have been terminated.")
  | (l, Some msg) => (l, ("Failed to kill Chrome instances: " ++ msg)%string)
  end.

(** [s] has an occurrence of [needle] up to the case of letters
    ([needle] being in lower case). *)
Definition occurs_ignoring_case (needle s : string) : Prop :=
  exists pre mid post : string,
    s = (pre ++ mid ++ post)%string /\ lower mid = needle.

(** The name matches the browser signature. *)
Definition name_matches (p : Process) : Prop :=
  exists n, name p = Some n /\ occurs_ignoring_case "chrome" n.

(** The executable path carries the marker of the automation engine. *)
Definition exe_matches (p : Process) : Prop :=
  exists e, exe p = Some e /\ occurs_ignoring_case "playwright" e.

(** No [terminate()] raises anything but the two exceptions caught in
    the loop body. *)
Definition no_other_error (terminate : Process -> Terminated) : Prop :=
  forall q msg, terminate q <> OtherError msg.

(** ** Concrete sessions *)

(** The session right after the first [PlayWrightManager()], in a world
    with the given oracle and no call made yet. *)
Definition start_session (orc : nat -> bool) : Session :=
  {| self := init_attrs chromium false default_viewport Fresh;
     env := {| oracle := orc; trace := [] |} |}.

(** The session after one [ensure_browser] from [start_session]. *)
Definition acquired_session (orc : nat -> bool) : Session :=
  snd (ensure_browser (start_session orc)).

(** ** Invariants of the program state *)

(** After the first construction: one object, it is the singleton, it
    has been initialised with configuration [c], and the global is
    [None] or refers to it. *)
Definition Inv (c : BrowserType * bool * Viewport) (st : Program) : Prop :=
  exists m, heap st = [Built m] /\ _instance st = Some 0 /\
            initialized m = true /\ config m = c /\
            (pw_manager st = None \/ pw_manager st = Some 0).

(** [m] keeps [P] on the state and, when it returns, its result
    satisfies [Q]. *)
Definition hoare {S A : Type} (P : S -> Prop) (m : ST S A) (Q : A -> Prop) : Prop :=
  forall st, P st -> P (snd (m st)) /\ forall x, fst (m st) = Ret x -> Q x.

(** A method that leaves configuration [c] and the guard of [__init__]
    in place. *)
Definition keeps_config {A : Type} (c : BrowserType * bool * Viewport)
    (m : Method A) : Prop :=
  forall s, config (self s) = c -> initialized (self s) = true ->
            config (self (snd (m s))) = c /\
            initialized (self (snd (m s))) = true.

(** A second construction with other arguments, on a live session. *)
Definition rebuilt_program : Outcome nat * Program :=
  (PlayWrightManager chromium false default_viewport ;;
   on_instance ensure_browser ;;
   PlayWrightManager firefox true {| width := 800; height := 600 |})
  (empty_program {| oracle := always_ok; trace := [] |}).

(** A program whose first construction asks for a headless [chromium],
    with the global set and the page acquired. *)
Definition headless_program : Program :=
  snd ((r <- PlayWrightManager chromium true default_viewport ;;
        set_global (Some r) ;;
        invoke r ensure_browser)
       (empty_program {| oracle := always_ok; trace := [] |})).

(** ** Concrete processes *)

Definition chrome_of_playwright : Process :=
  {| pid := 4242; name := Some "Chrome.exe";
     exe := Some "C:\Users\dev\AppData\Local\ms-playwright\chromium-1091\chrome-win\chrome.exe" |}.

Definition chrome_of_system : Process :=
  {| pid := 17; name := Some "chrome"; exe := Some "/usr/bin/chrome" |}.

Definition node_of_playwright : Process :=
  {| pid := 18; name := Some "node";
     exe := Some "/home/dev/.cache/ms-playwright/driver/node" |}.

Definition unreadable_process : Process :=
  {| pid := 1; name := Some "chrome"; exe := None |}.

Definition process_table : list Process :=
  [chrome_of_system; chrome_of_playwright; node_of_playwright; unreadable_process].

(** A [terminate()] that is refused for every process. *)
Definition denied (p : Process) : Terminated := AccessDenied.

(** ** Kinds of calls *)

(** The calls that create a Playwright object, as opposed to those that
    close or stop one. *)
Definition is_creation (c : Call) : bool :=
  match c with
  | EngineStart | BrowserLaunch _ _ _ | ContextNew _ _ | PageNew _ => true
  | ContextClose _ | BrowserClose _ | EngineStop _ | PageClose _ => false
  end.

(** ** Runs of the tools *)

(** The tools of the server, as opposed to direct uses of the class. *)
Definition is_tool (op : Op) : bool := negb (session_op op).

(** [m] started in a state satisfying [P] ends in a state satisfying
    [Q a] when it returns [a] and [E] when it raises. *)
Definition triple {S A : Type} (P : S -> Prop) (m : ST S A)
    (Q : A -> S -> Prop) (E : S -> Prop) : Prop :=
  forall st, P st ->
    match m st with
    | (Ret a, st') => Q a st'
    | (Raise _, st') => E st'
    end.

(** The program holds one initialised manager, the singleton, satisfying
    [I] together with the world. *)
Definition holds_manager (I : Session -> Prop) (st : Program) (m : Manager) : Prop :=
  heap st = [Built m] /\ _instance st = Some 0 /\ initialized m = true /\
  I {| self := m; env := world st |}.

(** The global refers to the singleton. *)
Definition Bound (I : Session -> Prop) (st : Program) : Prop :=
  exists m, holds_manager I st m /\ pw_manager st = Some 0.

(** The global is [None] and the singleton holds no handle. *)
Definition Released (I : Session -> Prop) (st : Program) : Prop :=
  exists m, holds_manager I st m /\ pw_manager st = None /\ torn_down m.

(** The states the tools move between. *)
Definition ToolInv (I : Session -> Prop) (st : Program) : Prop :=
  Bound I st \/ Released I st.

(** A property of the session kept by everything the tools do to it. *)
Record tool_invariant (I : Session -> Prop) : Prop := {
  ti_ensure_browser : forall s, I s -> I (snd (ensure_browser s));
  ti_close : forall s, I s -> I (snd (close s));
  ti_browser_type :
    forall s, I s -> I (snd (assign (set_browser_type chromium) s));
  ti_headless : forall s, I s -> I (snd (assign (set_headless false) s))
}.

(** The module once imported, no call made yet. *)
Definition imported (orc : nat -> bool) : Program :=
  snd (module_import {| oracle := orc; trace := [] |}).

(** ** What the trace tells *)

(** A launch made with the default kind and headless flag, a context
    opened with the default viewport. *)
Definition launch_default (c : Call) : Prop :=
  match c with
  | BrowserLaunch _ kind hl => kind = chromium /\ hl = false
  | ContextNew _ (Some vp) => vp = default_viewport
  | _ => True
  end.

(** The session stores the default configuration and every launch so
    far used it. *)
Definition default_session (s : Session) : Prop :=
  config (self s) = (chromium, false, default_viewport) /\
  Forall launch_default (trace (env s)).

(** The calls of a trace that returned, the first call having index [i]. *)
Fixpoint returned_from (orc : nat -> bool) (i : nat) (tr : list Call) : list Call :=
  match tr with
  | [] => []
  | c :: t => (if orc i then [c] else []) ++ returned_from orc (S i) t
  end.

Definition returned (w : World) : list Call :=
  returned_from (oracle w) 0 (trace w).

Definition count (f : Call -> bool) (l : list Call) : nat :=
  List.length (filter f l).

Definition is_engine_start (c : Call) : bool :=
  match c with EngineStart => true | _ => false end.

Definition is_engine_stop (c : Call) : bool :=
  match c with EngineStop _ => true | _ => false end.

Definition is_browser_launch (c : Call) : bool :=
  match c with BrowserLaunch _ _ _ => true | _ => false end.

Definition is_browser_close (c : Call) : bool :=
  match c with BrowserClose _ => true | _ => false end.

(** Engines started and not stopped, browsers launched and not closed,
    counting the calls that returned. *)
Definition engines_running (w : World) : nat :=
  count is_engine_start (returned w) - count is_engine_stop (returned w).

Definition browsers_running (w : World) : nat :=
  count is_browser_launch (returned w) - count is_browser_close (returned w).

Definition stored (h : option Handle) : nat :=
  if truthy h then 1 else 0.

(** Every engine started and not stopped, every browser launched and not
    closed, is the one stored on the manager. *)
Definition balanced (s : Session) : Prop :=
  count is_engine_start (returned (env s)) =
    count is_engine_stop (returned (env s)) + stored (playwright (self s)) /\
  count is_browser_launch (returned (env s)) =
    count is_browser_close (returned (env s)) + stored (browser (self s)).

Definition unconstrained (s : Session) : Prop := True.

(** ** browser_find_by_xpath: the selector *)

(** The selector [browser_find_by_xpath] queries for the argument
    [xpath]: the argument itself when it starts with "//" or "xpath=",
    else the argument behind "xpath=". *)
Definition xpath_selector (xpath : string) : string :=
  if negb (starts_with "//" xpath) && negb (starts_with "xpath=" xpath)
  then ("xpath=" ++ xpath)%string
  else xpath.

(** What a failed acquisition leaves on the manager: the object the
    failing call was made on is stored, the attributes the later steps
    would have assigned are as before. *)
Definition left_by_failed (m m' : Manager) (c : Call) : Prop :=
  match c with
  | EngineStart => m' = m
  | BrowserLaunch e _ _ =>
      playwright m' = Some e /\ browser m' = browser m /\
      context m' = context m /\ page m' = page m
  | ContextNew b _ =>
      browser m' = Some b /\ context m' = context m /\ page m' = page m
  | PageNew c => context m' = Some c /\ page m' = page m
  | _ => False
  end.

(** Two process entries that differ at most in the pid and in the case
    of the letters of name and path. *)
Definition same_up_to_case (p q : Process) : Prop :=
  option_map lower (name p) = option_map lower (name q) /\
  option_map lower (exe p) = option_map lower (exe q).

Definition other_chrome_of_playwright : Process :=
  {| pid := 4243; name := Some "chrome";
     exe := Some "/home/dev/.cache/ms-playwright/chromium-1091/chrome-linux/chrome" |}.

(** A [terminate()] that raises an exception the loop body does not
    catch. *)
Definition failing (p : Process) : Terminated := OtherError "OSError".



(** ** Acquisitions with other steps in between *)

(** A step taken between two acquisitions that is neither a [close]
    nor a construction: it may change the configuration and the world,
    not the four handles. *)
Definition keeps_handles (f : Session -> Session) : Prop :=
  forall s, playwright (self (f s)) = playwright (self s) /\
            browser (self (f s)) = browser (self s) /\
            context (self (f s)) = context (self s) /\
            page (self (f s)) = page (self s).

(** The outcomes of consecutive calls of [ensure_browser] with the
    steps of [between] taken in between, one after each call but the
    last. *)
Fixpoint acquisitions (between : list (Session -> Session)) (s : Session)
    : list (Outcome (option Handle)) :=
  match between with
  | [] => [fst (ensure_browser s)]
  | f :: fs => let (o, s') := ensure_browser s in o :: acquisitions fs (f s')
  end.

(** The two assignments of [browser_save_as_pdf], as a step. *)
Definition pdf_assignments (s : Session) : Session :=
  {| self := set_headless false (set_browser_type chromium (self s));
     env := env s |}.

(** Two acquisitions with a construction, and no [close], in between. *)
Definition acquire_construct_acquire
    : Outcome (option Handle * option Handle) * Program :=
  (PlayWrightManager chromium false default_viewport ;;
   p1 <- on_instance ensure_browser ;;
   PlayWrightManager chromium false default_viewport ;;
   p2 <- on_instance ensure_browser ;;
   ret (p1, p2))
  (empty_program {| oracle := always_ok; trace := [] |}).

(** * Proofs *)

Unset Implicit Arguments.

(** ** Traces *)

Lemma skipn_length_app (A : Type) (l l' : list A) :
  skipn (List.length l) (l ++ l') = l'.
Proof.
  induction l as [|x l IH]; simpl; auto.
Qed.

Lemma skipn_length_self (A : Type) (l : list A) :
  skipn (List.length l) l = [].
Proof.
  induction l as [|x l IH]; simpl; auto.
Qed.

Lemma length_snoc (A : Type) (l : list A) (x : A) :
  List.length (l ++ [x]) = S (List.length l).
Proof.
  rewrite length_app. simpl. lia.
Qed.

Ltac unfold_method :=
  unfold ensure_browser, close, bind, when, read, read_page, assign, modify,
    await, receiver, ret, raise, new_calls in *;
  simpl in *.

Ltac ask_oracle :=
  repeat match goal with
         | |- context [if ?o ?n then _ else _] =>
             destruct (o n) eqn:?; simpl in *
         end.

Ltac calls_norm :=
  repeat rewrite <- app_assoc;
  repeat rewrite skipn_length_app;
  repeat rewrite skipn_length_self;
  simpl.

(** Case analysis on the handles stored on [self]. *)
Ltac open_session s :=
  let i := fresh "ini" in
  let bt := fresh "kind" in
  let hl := fresh "hl" in
  let vp := fresh "vp" in
  let pw := fresh "pw" in
  let br := fresh "br" in
  let cx := fresh "cx" in
  let pg := fresh "pg" in
  let orc := fresh "orc" in
  let tr := fresh "tr" in
  destruct s as [[i bt hl vp pw br cx pg] [orc tr]];
  destruct pw, br, cx, pg as [|[|]];
  unfold_method.

Ltac contradict_oracle Hok :=
  repeat match goal with
         | H : _ = false |- _ => rewrite Hok in H; discriminate H
         end.

(** ** close *)

(** C8: the calls [close] makes are an initial part of the plan
    context, browser, engine, page (steps with a null handle skipped);
    they are the whole plan when [close] returns, which it does when every
    call returns and the page attribute exists. *)
Theorem close_teardown_order (s : Session) :
  let '(o, s') := close s in
  (exists k, new_calls s s' = firstn k (teardown_plan (self s))) /\
  (o = Ret tt -> new_calls s s' = teardown_plan (self s)) /\
  ((forall n, oracle (env s) n = true) -> page (self s) <> Unset -> o = Ret tt).
Proof.
  open_session s; unfold teardown_plan, page_handle; simpl;
    ask_oracle; calls_norm;
    (split; [| split; [intro E; try discriminate E; reflexivity
                      | intros Hok Hpg; contradict_oracle Hok;
                        try reflexivity; exfalso; apply Hpg; reflexivity]]).
  all: first [ exists 4; reflexivity | exists 3; reflexivity
             | exists 2; reflexivity | exists 1; reflexivity
             | exists 0; reflexivity ].
Qed.

Ltac index_cases i H :=
  destruct i as [|[|[|[|[|i]]]]]; simpl in H; try discriminate H.

(** C1 (amended): [close] nulls a handle only after its close or stop
    call has returned.  When [close] returns it has made every call of
    the teardown plan, each of them returned and every handle is null; it
    does return when every call returns and the page attribute exists.
    When a call it makes raises, [close] raises that same exception at
    once: the call is the last one made, its handle and the handles of
    the later steps keep their values and the handles of the earlier
    steps are null.  [close] raises the exception of a call only if that
    call was made and raised. *)
Theorem close_nulls_after_each_call (s : Session) :
  let '(o, s') := close s in
  let n := List.length (trace (env s)) in
  (o = Ret tt ->
     torn_down (self s') /\
     new_calls s s' = teardown_plan (self s) /\
     forall i, i < List.length (new_calls s s') -> oracle (env s) (i + n) = true) /\
  (forall i c, nth_error (new_calls s s') i = Some c ->
     oracle (env s) (i + n) = false ->
     o = Raise (CallFailed c) /\
     new_calls s s' = firstn (S i) (teardown_plan (self s)) /\
     still_held (self s') c /\
     self s' = stopped_at (self s) c) /\
  (forall c, o = Raise (CallFailed c) ->
     exists i, nth_error (new_calls s s') i = Some c /\
               oracle (env s) (i + n) = false) /\
  ((forall k, oracle (env s) k = true) -> page (self s) <> Unset -> o = Ret tt).
Proof.
  open_session s; unfold torn_down, teardown_plan, page_handle; simpl;
    ask_oracle; repeat rewrite length_snoc in *; calls_norm;
    (split;
     [ intro E; try discriminate E;
       (split; [repeat split |
        split; [reflexivity |
                intros i Hi; simpl in Hi;
                destruct i as [|[|[|[|i]]]]; simpl; try assumption; lia]])
     | split;
       [ intros i c' Hn Hor; index_cases i Hn; injection Hn as <-;
         simpl in Hor; try congruence; repeat split
       | split;
         [ intros c' E; try discriminate E; injection E as <-;
           first [ exists 0; split; [reflexivity | assumption]
                 | exists 1; split; [reflexivity | assumption]
                 | exists 2; split; [reflexivity | assumption]
                 | exists 3; split; [reflexivity | assumption] ]
         | intros Hok Hpg; contradict_oracle Hok;
           try reflexivity; exfalso; apply Hpg; reflexivity ] ] ]).
Qed.

(** C1, as stated, fails: on a fully acquired session whose
    [context.close()] raises, [close] raises as well, no handle is nulled
    and no later close or stop call is made. *)
Lemma close_stops_at_first_failure :
  let s := acquired_session (fails_at 4) in
  let '(o, s') := close s in
  o = Raise (CallFailed (ContextClose 2)) /\
  context (self s') = Some 2 /\ browser (self s') = Some 1 /\
  playwright (self s') = Some 0 /\ page (self s') = Val (Some 3) /\
  new_calls s s' = [ContextClose 2].
Proof.
  vm_compute. repeat split.
Qed.

(** A teardown in which every call returns, and one whose
    [browser.close()], the call of index 5, raises. *)
Lemma close_nulls_after_each_call_witness :
  (fst (close (acquired_session always_ok)) = Ret tt /\
   torn_down (self (snd (close (acquired_session always_ok))))) /\
  fst (close (acquired_session (fails_at 5))) =
    Raise (CallFailed (BrowserClose 1)).
Proof.
  split.
  - assert (Hok : forall n, oracle (env (acquired_session always_ok)) n = true)
      by (intro n; reflexivity).
    assert (Hpg : page (self (acquired_session always_ok)) <> Unset)
      by (vm_compute; discriminate).
    pose proof (close_nulls_after_each_call (acquired_session always_ok)) as H.
    destruct (close (acquired_session always_ok)) as [o s'].
    destruct H as (Hnull & _ & _ & Hret).
    split; [exact (Hret Hok Hpg) | exact (proj1 (Hnull (Hret Hok Hpg)))].
  - pose proof (close_nulls_after_each_call (acquired_session (fails_at 5))) as H.
    destruct (close (acquired_session (fails_at 5))) as [o s'] eqn:E.
    destruct H as (_ & Hraise & _).
    assert (Hn : nth_error (new_calls (acquired_session (fails_at 5)) s') 1 =
                 Some (BrowserClose 1))
      by (vm_compute in E; injection E as _ <-; reflexivity).
    exact (proj1 (Hraise 1 (BrowserClose 1) Hn eq_refl)).
Defined.

(** C7: the code breaks the claim.  On the manager as the import
    leaves it the engine, browser and context attributes are [None] and
    there is no page attribute: every handle is null, yet [close] raises
    [AttributeError] on [self.page]; it makes no call and changes nothing,
    so a second [close] raises again. *)
Theorem close_fails_on_unused_manager (orc : nat -> bool) :
  playwright (self (start_session orc)) = None /\
  browser (self (start_session orc)) = None /\
  context (self (start_session orc)) = None /\
  page_handle (self (start_session orc)) = None /\
  close (start_session orc) =
    (Raise (AttributeError "page"), start_session orc) /\
  close (snd (close (start_session orc))) =
    (Raise (AttributeError "page"), start_session orc).
Proof.
  repeat split.
Qed.

(** Where the page attribute holds [None]: on a session whose four
    handles are [None], [close] makes no call, does not raise and leaves
    the session as it is; hence a [close] that has returned can be
    repeated with no call, no error and no change. *)
Theorem close_idempotent (s : Session) :
  let '(o, s') := close s in
  (torn_down (self s) -> o = Ret tt /\ s' = s /\ new_calls s s' = []) /\
  (o = Ret tt -> close s' = (Ret tt, s') /\ new_calls s' (snd (close s')) = []).
Proof.
  open_session s; unfold torn_down; simpl; ask_oracle; calls_norm;
    (split; [intros (E1 & E2 & E3 & E4); try discriminate;
             repeat split; calls_norm; reflexivity
            | intro E; try discriminate E; split; calls_norm; reflexivity]).
Qed.

(** Two teardowns in a row of a fully acquired session. *)
Lemma close_idempotent_witness :
  fst (close (acquired_session always_ok)) = Ret tt /\
  close (snd (close (acquired_session always_ok))) =
    (Ret tt, snd (close (acquired_session always_ok))).
Proof.
  pose proof (close_idempotent (acquired_session always_ok)) as H.
  destruct (close (acquired_session always_ok)) as [o s'] eqn:E.
  assert (Ho : o = Ret tt) by (vm_compute in E; congruence).
  destruct H as [_ H]. split; [exact Ho | exact (proj1 (H Ho))].
Defined.

(** ** ensure_browser *)

(** A call that returns leaves all four handles set and returns the
    stored page, which is not [None]. *)
Lemma ensure_browser_returns (s : Session) :
  let '(o, s') := ensure_browser s in
  forall v, o = Ret v ->
    live (self s') /\ page (self s') = Val v /\ v <> None.
Proof.
  open_session s; unfold live, page_handle; simpl; ask_oracle;
    intros v E; try discriminate E; injection E as <-;
    repeat split; discriminate.
Qed.

(** On a session with all four handles set the call returns the stored
    page and changes nothing. *)
Lemma ensure_browser_live (s : Session) :
  live (self s) -> ensure_browser s = (Ret (page_handle (self s)), s).
Proof.
  open_session s; unfold live, page_handle; simpl;
    intros (H1 & H2 & H3 & H4); try congruence; reflexivity.
Qed.

Lemma keeps_handles_live (f : Session -> Session) (s : Session) :
  keeps_handles f -> live (self s) ->
  live (self (f s)) /\ page_handle (self (f s)) = page_handle (self s).
Proof.
  intros Hf (H1 & H2 & H3 & H4). destruct (Hf s) as (E1 & E2 & E3 & E4).
  unfold live, page_handle in *. rewrite E1, E2, E3, E4. repeat split; assumption.
Qed.

Lemma acquisitions_live (between : list (Session -> Session)) :
  Forall keeps_handles between ->
  forall s j, live (self s) -> j <= List.length between ->
    nth_error (acquisitions between s) j = Some (Ret (page_handle (self s))).
Proof.
  induction 1 as [|f fs Hf Hfs IH]; intros s j Hl Hj; simpl in *.
  - rewrite (ensure_browser_live s Hl). destruct j; [reflexivity | lia].
  - rewrite (ensure_browser_live s Hl).
    destruct j as [|j]; [reflexivity|].
    destruct (keeps_handles_live f s Hf Hl) as [Hl' Hp'].
    simpl. rewrite <- Hp'. apply IH; [exact Hl' | lia].
Qed.

(** C2 (amended): in a sequence of [ensure_browser] calls with neither
    a [close] nor a construction in between (whatever else happens in
    between leaves the four handles alone), once a call has returned a
    page every later call returns that same page; so every call returns
    the page returned by the first. *)
Theorem ensure_browser_same_page (between : list (Session -> Session)) :
  Forall keeps_handles between ->
  forall (s : Session) (i j : nat) (v : option Handle),
    i <= j -> j <= List.length between ->
    nth_error (acquisitions between s) i = Some (Ret v) ->
    nth_error (acquisitions between s) j = Some (Ret v) /\ v <> None.
Proof.
  induction 1 as [|f fs Hf Hfs IH]; intros s i j v Hij Hj Hi; simpl in *.
  - assert (i = 0) by lia. assert (j = 0) by lia. subst i j.
    simpl in *. split; [exact Hi|].
    injection Hi as Hi. pose proof (ensure_browser_returns s) as Hr.
    destruct (ensure_browser s) as [o s']. simpl in Hi. subst o.
    exact (proj2 (proj2 (Hr v eq_refl))).
  - pose proof (ensure_browser_returns s) as Hr.
    destruct (ensure_browser s) as [o s'].
    destruct i as [|i].
    + simpl in Hi. injection Hi as ->.
      destruct (Hr v eq_refl) as (Hl & Hp & Hv).
      split; [|exact Hv].
      destruct j as [|j]; [reflexivity|].
      destruct (keeps_handles_live f s' Hf Hl) as [Hl' Hp'].
      simpl. rewrite (acquisitions_live fs Hfs (f s') j Hl' ltac:(lia)).
      rewrite Hp'. unfold page_handle. rewrite Hp. reflexivity.
    + destruct j as [|j]; [lia|].
      simpl in *. apply (IH (f s') i j v); [lia | lia | exact Hi].
Qed.

(** C2, as stated, fails: with a construction and no [close] between
    two acquisitions, the second call launches a new browser and returns
    another page than the first; nothing is closed in between. *)
Lemma construction_between_acquisitions :
  fst acquire_construct_acquire = Ret (Some 3, Some 7) /\
  Forall (fun c => is_creation c = true)
         (trace (world (snd acquire_construct_acquire))).
Proof.
  split; [reflexivity | vm_compute; repeat constructor].
Qed.

(** Three calls from the freshly constructed session, the assignments
    of [browser_save_as_pdf] being made between the first two: the third
    returns the page of the first. *)
Lemma ensure_browser_same_page_witness :
  Forall keeps_handles [pdf_assignments; fun s => s] /\
  nth_error (acquisitions [pdf_assignments; fun s => s]
               (start_session always_ok)) 0 = Some (Ret (Some 3)) /\
  nth_error (acquisitions [pdf_assignments; fun s => s]
               (start_session always_ok)) 2 = Some (Ret (Some 3)).
Proof.
  assert (Hk : Forall keeps_handles [pdf_assignments; fun s => s])
    by (repeat constructor; intros [[ini k h v pw br cx pg] w]; repeat split).
  assert (H0 : nth_error (acquisitions [pdf_assignments; fun s => s]
                            (start_session always_ok)) 0
               = Some (Ret (Some 3))) by reflexivity.
  split; [exact Hk | split; [exact H0|]].
  apply (ensure_browser_same_page [pdf_assignments; fun s => s] Hk
           (start_session always_ok) 0 2);
    [lia | simpl; lia | exact H0].
Defined.

Ltac in_cases H :=
  simpl in H;
  repeat match type of H with
         | _ \/ _ => destruct H as [H | H]
         end;
  try contradiction; try discriminate H.

(** C6: when the browser handle is set and the context handle is null,
    the only context [ensure_browser] creates is one with default options
    on that browser, and it does create it as soon as the engine is there
    or starts.  A context is created with the stored viewport only in a
    call that found no browser, right after the launch of the browser. *)
Theorem recreated_context_uses_defaults (s : Session) :
  let '(o, s') := ensure_browser s in
  (forall b, browser (self s) = Some b -> context (self s) = None ->
     (forall b' vp, In (ContextNew b' vp) (new_calls s s') ->
        b' = b /\ vp = None) /\
     (playwright (self s) <> None \/
      oracle (env s) (List.length (trace (env s))) = true ->
      In (ContextNew b None) (new_calls s s'))) /\
  (forall b' vp, In (ContextNew b' (Some vp)) (new_calls s s') ->
     browser (self s) = None /\ vp = viewport (self s) /\
     exists e pre post,
       new_calls s s' =
         pre ++ [BrowserLaunch e (browser_type (self s)) (headless (self s));
                 ContextNew b' (Some vp)] ++ post).
Proof.
  open_session s; ask_oracle; calls_norm;
    (split;
     [ intros b Hb Hc; try discriminate Hc; try discriminate Hb; injection Hb as <-;
       (split;
        [ intros b' vp' Hin; in_cases Hin; injection Hin as <- <-;
          (split; reflexivity)
        | intros [Hpw | Horc]; try congruence; simpl; tauto ])
     | intros b' vp' Hin; in_cases Hin; injection Hin as <- <-;
       (split; [reflexivity | split; [reflexivity |]]);
       first [ eexists; exists []; eexists; reflexivity
             | eexists; eexists [_]; eexists; reflexivity ] ]).
Qed.

(** A session whose first acquisition stopped at the creation of the
    context: the next call creates a context with default options. *)
Lemma recreated_context_uses_defaults_witness :
  browser (self (acquired_session (fails_at 2))) = Some 1 /\
  context (self (acquired_session (fails_at 2))) = None /\
  In (ContextNew 1 None)
     (new_calls (acquired_session (fails_at 2))
        (snd (ensure_browser (acquired_session (fails_at 2))))).
Proof.
  assert (Hb : browser (self (acquired_session (fails_at 2))) = Some 1)
    by reflexivity.
  assert (Hc : context (self (acquired_session (fails_at 2))) = None)
    by reflexivity.
  split; [exact Hb | split; [exact Hc |]].
  pose proof (recreated_context_uses_defaults (acquired_session (fails_at 2))) as H.
  destruct (ensure_browser (acquired_session (fails_at 2))) as [o s'].
  destruct H as [H _]. destruct (H 1 Hb Hc) as [_ Hmake].
  apply Hmake. left. vm_compute. discriminate.
Defined.

(** C9: the code breaks the claim.  On a freshly constructed manager
    whose first [ensure_browser] stops at the creation of the context,
    the browser is stored, the context is null and the page attribute
    does not exist; the second [ensure_browser], in which every call
    returns, creates a context and then raises [AttributeError] on
    [self.page] instead of returning a page. *)
Theorem ensure_browser_reads_missing_page :
  fst (ensure_browser (start_session (fails_at 2))) =
    Raise (CallFailed (ContextNew 1 (Some default_viewport))) /\
  self (acquired_session (fails_at 2)) =
    {| initialized := true; browser_type := chromium; headless := false;
       viewport := default_viewport; playwright := Some 0;
       browser := Some 1; context := None; page := Unset |} /\
  fst (ensure_browser (acquired_session (fails_at 2))) =
    Raise (AttributeError "page") /\
  new_calls (acquired_session (fails_at 2))
    (snd (ensure_browser (acquired_session (fails_at 2)))) =
    [ContextNew 1 None].
Proof.
  repeat split.
Qed.

(** The same missing attribute stops [close] on a manager that was
    constructed and never used. *)
Remark close_reads_missing_page (orc : nat -> bool) :
  close (start_session orc) = (Raise (AttributeError "page"), start_session orc).
Proof.
  reflexivity.
Qed.

(** When the page attribute exists and every call returns,
    [ensure_browser] returns a page. *)
Lemma ensure_browser_total (s : Session) :
  (forall n, oracle (env s) n = true) -> page (self s) <> Unset ->
  exists p, fst (ensure_browser s) = Ret (Some p).
Proof.
  open_session s; intros Hok Hpg; repeat (rewrite Hok; simpl);
    try (exfalso; apply Hpg; reflexivity); eexists; reflexivity.
Qed.

(** ** The ownership chain *)

Lemma ensure_browser_keeps_chain (s : Session) :
  chain (self s) -> chain (self (snd (ensure_browser s))).
Proof.
  open_session s; unfold chain, page_handle; simpl; ask_oracle;
    intuition congruence.
Qed.

Lemma close_keeps_chain (s : Session) :
  chain (self s) -> fst (close s) = Ret tt -> chain (self (snd (close s))).
Proof.
  open_session s; unfold chain, page_handle; simpl; ask_oracle;
    intuition congruence.
Qed.

(** C4 (amended): the chain engine -> browser -> context -> page is
    kept by [ensure_browser], whether it returns or raises, and by a
    [close] that returns; it holds after a construction made on a new
    object or on one whose page handle is not set. *)
Theorem chain_preserved :
  (forall s, chain (self s) -> chain (self (snd (ensure_browser s)))) /\
  (forall s, chain (self s) -> fst (close s) = Ret tt ->
             chain (self (snd (close s)))) /\
  (forall kind hl vp, chain (init_attrs kind hl vp Fresh)) /\
  (forall kind hl vp m, page_handle m = None ->
                        chain (init_attrs kind hl vp (Built m))).
Proof.
  split; [exact ensure_browser_keeps_chain |].
  split; [exact close_keeps_chain |].
  split.
  - intros kind hl vp. unfold chain, page_handle. simpl. tauto.
  - intros kind hl vp [ini k h v pw br cx pg] Hpg.
    unfold chain, page_handle in *. simpl in *.
    destruct ini; simpl; tauto.
Qed.

(** C4, as stated, fails: on a fully acquired session, a [close] whose
    [browser.close()] raises leaves the page and the browser stored with
    the context already null. *)
Lemma close_can_break_chain :
  chain (self (acquired_session (fails_at 5))) /\
  fst (close (acquired_session (fails_at 5))) =
    Raise (CallFailed (BrowserClose 1)) /\
  ~ chain (self (snd (close (acquired_session (fails_at 5))))).
Proof.
  split; [| split].
  - vm_compute. repeat split; discriminate.
  - reflexivity.
  - intros (_ & Hpage & _). apply Hpage; vm_compute; [discriminate | reflexivity].
Qed.

(** The chain holds before and after an acquisition that stops at the
    creation of the context, and after a teardown that returns. *)
Lemma chain_preserved_witness :
  chain (self (start_session (fails_at 2))) /\
  chain (self (snd (ensure_browser (start_session (fails_at 2))))) /\
  fst (close (acquired_session always_ok)) = Ret tt /\
  chain (self (snd (close (acquired_session always_ok)))).
Proof.
  destruct chain_preserved as (He & Hc & Hf & _).
  assert (H0 : chain (self (start_session (fails_at 2))))
    by exact (Hf chromium false default_viewport).
  assert (H1 : chain (self (acquired_session always_ok)))
    by exact (He (start_session always_ok) (Hf chromium false default_viewport)).
  split; [exact H0 | split; [exact (He _ H0) | split; [reflexivity |]]].
  apply Hc; [exact H1 | reflexivity].
Defined.

(** ** Construction *)

Lemma construct_again (st : Program) (m : Manager)
    (kind : BrowserType) (hl : bool) (vp : Viewport) :
  heap st = [Built m] -> _instance st = Some 0 -> initialized m = true ->
  PlayWrightManager kind hl vp st =
    (Ret 0,
     {| heap := [Built (set_context None (set_browser None
                          (set_playwright None m)))];
        _instance := Some 0; pw_manager := pw_manager st;
        world := world st |}).
Proof.
  intros Hh Hi Hini. destruct st as [h i g w]. simpl in *. subst h i.
  unfold PlayWrightManager, bind, __new__, __init__. simpl.
  rewrite Hini. reflexivity.
Qed.

(** C10: once the singleton exists and has been initialised, the
    expression [PlayWrightManager(kind, hl, vp)] returns that same object
    and allocates nothing; the stored configuration keeps its values
    whatever the arguments; the engine, browser and context handles are
    set to [None] while the page attribute is left alone, and no call is
    made to close anything. *)
Theorem second_construction (st : Program) (m : Manager)
    (kind : BrowserType) (hl : bool) (vp : Viewport) :
  heap st = [Built m] -> _instance st = Some 0 -> initialized m = true ->
  PlayWrightManager kind hl vp st =
    (Ret 0,
     {| heap := [Built {| initialized := true;
                          browser_type := browser_type m;
                          headless := headless m;
                          viewport := viewport m;
                          playwright := None; browser := None;
                          context := None; page := page m |}];
        _instance := Some 0; pw_manager := pw_manager st;
        world := world st |}).
Proof.
  intros Hh Hi Hini. destruct st as [h i g w]. simpl in *. subst h i.
  destruct m as [ini k b v pw br cx pg]. simpl in Hini. subst ini.
  reflexivity.
Qed.

(** The first construction creates the object and stores the arguments. *)
Lemma first_construction (w : World) (kind : BrowserType) (hl : bool)
    (vp : Viewport) :
  PlayWrightManager kind hl vp (empty_program w) =
    (Ret 0,
     {| heap := [Built (init_attrs kind hl vp Fresh)]; _instance := Some 0;
        pw_manager := None; world := w |}).
Proof.
  reflexivity.
Qed.

(** After a first construction with the defaults and an acquisition, a
    construction with [firefox], [headless = True] and an 800x600
    viewport returns the same object with the first configuration, no
    engine, browser or context, the old page, and the trace of the
    acquisition only. *)
Lemma second_construction_witness :
  rebuilt_program =
    (Ret 0,
     {| heap := [Built {| initialized := true; browser_type := chromium;
                          headless := false; viewport := default_viewport;
                          playwright := None; browser := None;
                          context := None; page := Val (Some 3) |}];
        _instance := Some 0; pw_manager := None;
        world := {| oracle := always_ok;
                    trace := [EngineStart; BrowserLaunch 0 chromium false;
                              ContextNew 1 (Some default_viewport);
                              PageNew 2] |} |}).
Proof.
  exact (second_construction
           (snd ((PlayWrightManager chromium false default_viewport ;;
                  on_instance ensure_browser)
                 (empty_program {| oracle := always_ok; trace := [] |})))
           {| initialized := true; browser_type := chromium;
              headless := false; viewport := default_viewport;
              playwright := Some 0; browser := Some 1;
              context := Some 2; page := Val (Some 3) |}
           firefox true {| width := 800; height := 600 |}
           eq_refl eq_refl eq_refl).
Defined.

(** ** The stored configuration *)

Lemma hoare_ret {S A : Type} (P : S -> Prop) (Q : A -> Prop) (a : A) :
  Q a -> hoare P (ret a) Q.
Proof.
  intros Ha st Hst. split; [exact Hst|].
  intros x E. injection E as <-. exact Ha.
Qed.

Lemma hoare_bind {S A B : Type} (P : S -> Prop) (Q : A -> Prop)
    (R : B -> Prop) (m : ST S A) (k : A -> ST S B) :
  hoare P m Q -> (forall x, Q x -> hoare P (k x) R) -> hoare P (bind m k) R.
Proof.
  intros Hm Hk st Hst. unfold bind.
  destruct (Hm st Hst) as [Hp Hq].
  destruct (m st) as [[a | e] st1]; simpl in *.
  - exact (Hk a (Hq a eq_refl) st1 Hp).
  - split; [exact Hp | intros x E; discriminate E].
Qed.

Lemma hoare_when {S : Type} (P : S -> Prop) (b : bool) (m : ST S unit) :
  hoare P m (fun _ => True) -> hoare P (when b m) (fun _ => True).
Proof.
  intro Hm. destruct b; simpl; [exact Hm | apply hoare_ret; exact I].
Qed.

Lemma ensure_browser_keeps_config (c : BrowserType * bool * Viewport) :
  keeps_config c ensure_browser.
Proof.
  intro s; open_session s; unfold config; simpl; ask_oracle; auto.
Qed.

Lemma close_keeps_config (c : BrowserType * bool * Viewport) :
  keeps_config c close.
Proof.
  intro s; open_session s; unfold config; simpl; ask_oracle; auto.
Qed.

Lemma read_keeps_config {A : Type} (c : BrowserType * bool * Viewport)
    (f : Manager -> A) :
  keeps_config c (read f).
Proof.
  intros s Hc Hi. simpl. auto.
Qed.

(** The two assignments of [browser_save_as_pdf] store the values the
    default configuration already has. *)
Lemma pdf_assignments_keep_config (vp : Viewport) :
  keeps_config (chromium, false, vp) (assign (set_browser_type chromium)) /\
  keeps_config (chromium, false, vp) (assign (set_headless false)).
Proof.
  split; intros [[ini k h v pw br cx pg] w]; unfold config; simpl;
    intros Hc Hi; injection Hc as -> -> ->; auto.
Qed.

Lemma invoke_hoare {A : Type} (c : BrowserType * bool * Viewport)
    (meth : Method A) :
  keeps_config c meth -> hoare (Inv c) (invoke 0 meth) (fun _ => True).
Proof.
  intros Hk st (m & Hh & Hi & Hini & Hc & Hg).
  split; [| intros; exact I].
  unfold invoke. rewrite Hh. simpl.
  destruct (Hk {| self := m; env := world st |} Hc Hini) as [Hc' Hi'].
  destruct (meth {| self := m; env := world st |}) as [o s']. simpl in *.
  exists (self s'). repeat split; auto.
Qed.

Lemma construct_hoare (c : BrowserType * bool * Viewport)
    (kind : BrowserType) (hl : bool) (vp : Viewport) :
  hoare (Inv c) (PlayWrightManager kind hl vp) (fun r => r = 0).
Proof.
  intros st (m & Hh & Hi & Hini & Hc & Hg).
  rewrite (construct_again st m kind hl vp Hh Hi Hini). simpl.
  split; [| intros x E; injection E as <-; reflexivity].
  eexists. repeat split; auto.
Qed.

Lemma global_manager_hoare (c : BrowserType * bool * Viewport) :
  hoare (Inv c) global_manager (fun r => r = 0).
Proof.
  intros st Hst. pose proof Hst as (m & Hh & Hi & Hini & Hc & [Hg | Hg]);
    unfold global_manager; rewrite Hg; simpl;
    (split; [exact Hst | intros x E; congruence]).
Qed.

Lemma read_global_hoare (c : BrowserType * bool * Viewport) :
  hoare (Inv c) (fun st => (Ret (pw_manager st), st))
        (fun g => g = None \/ g = Some 0).
Proof.
  intros st Hst. simpl. split; [exact Hst|].
  intros x E. injection E as <-.
  destruct Hst as (m & _ & _ & _ & _ & Hg). exact Hg.
Qed.

Lemma set_global_hoare (c : BrowserType * bool * Viewport) (v : option nat) :
  v = None \/ v = Some 0 -> hoare (Inv c) (set_global v) (fun _ => True).
Proof.
  intros Hv st (m & Hh & Hi & Hini & Hc & Hg). simpl.
  split; [| intros; exact I].
  exists m. repeat split; auto.
Qed.

Lemma on_instance_hoare {A : Type} (c : BrowserType * bool * Viewport)
    (meth : Method A) :
  keeps_config c meth -> hoare (Inv c) (on_instance meth) (fun _ => True).
Proof.
  intros Hk st Hst. pose proof Hst as (m & _ & Hi & _).
  unfold on_instance. rewrite Hi. exact (invoke_hoare c meth Hk st Hst).
Qed.

Create HintDb config.

Local Hint Resolve ensure_browser_keeps_config close_keeps_config
  read_keeps_config : config.

Lemma pdf_prepare_hoare (c : BrowserType * bool * Viewport) :
  hoare (Inv c) pdf_prepare (fun r => r = 0).
Proof.
  unfold pdf_prepare.
  eapply hoare_bind; [apply global_manager_hoare|].
  intros r ->.
  eapply hoare_bind; [apply invoke_hoare; auto with config|].
  intros kind _.
  eapply hoare_bind; [apply invoke_hoare; auto with config|].
  intros hl _.
  eapply hoare_bind;
    [apply hoare_when; apply invoke_hoare; auto with config|].
  intros; apply hoare_ret; reflexivity.
Qed.

(** The operations of the class keep the invariant for every stored
    configuration. *)
Lemma session_op_hoare (c : BrowserType * bool * Viewport) (op : Op) :
  session_op op = true -> hoare (Inv c) (perform op) (fun _ => True).
Proof.
  destruct op; simpl; intro E; try discriminate E; unfold discard.
  - eapply hoare_bind; [apply construct_hoare|].
    intros; apply hoare_ret; exact I.
  - eapply hoare_bind;
      [apply on_instance_hoare; auto with config|].
    intros; apply hoare_ret; exact I.
  - apply on_instance_hoare; auto with config.
Qed.

(** Every operation keeps the invariant when the stored configuration
    is [chromium], not headless. *)
Lemma perform_hoare (vp : Viewport) (op : Op) :
  hoare (Inv (chromium, false, vp)) (perform op) (fun _ => True).
Proof.
  destruct (pdf_assignments_keep_config vp) as [Hkind Hhl].
  destruct op; try (apply session_op_hoare; reflexivity); simpl.
  - (* browser_navigate *)
    unfold browser_navigate. destruct (String.eqb url "");
      [apply hoare_ret; exact I|].
    eapply hoare_bind; [apply read_global_hoare|].
    intros g Hg. eapply hoare_bind with (Q := fun r => r = 0).
    + destruct Hg as [-> | ->]; [| apply hoare_ret; reflexivity].
      eapply hoare_bind; [apply construct_hoare|].
      intros r ->. eapply hoare_bind;
        [apply set_global_hoare; right; reflexivity|].
      intros; apply hoare_ret; reflexivity.
    + intros r ->. eapply hoare_bind;
        [apply invoke_hoare; auto with config|].
      intros; apply hoare_ret; exact I.
  - (* browser_close *)
    unfold browser_close.
    eapply hoare_bind; [apply read_global_hoare|].
    intros g [-> | ->]; [apply hoare_ret; exact I|].
    eapply hoare_bind; [apply invoke_hoare; auto with config|].
    intros; apply set_global_hoare; left; reflexivity.
  - (* browser_save_as_pdf *)
    unfold browser_save_as_pdf.
    eapply hoare_bind; [apply pdf_prepare_hoare|].
    intros r ->.
    eapply hoare_bind; [apply invoke_hoare; exact Hkind|].
    intros _ _.
    eapply hoare_bind; [apply invoke_hoare; exact Hhl|].
    intros _ _.
    eapply hoare_bind; [apply invoke_hoare; auto with config|].
    intros; apply hoare_ret; exact I.
  - (* the handlers that only obtain the page *)
    unfold page_handler.
    eapply hoare_bind; [apply global_manager_hoare|].
    intros r ->.
    eapply hoare_bind; [apply invoke_hoare; auto with config|].
    intros; apply hoare_ret; exact I.
  - apply hoare_ret; exact I.
Qed.

Lemma Inv_singleton_config (c : BrowserType * bool * Viewport) (st : Program) :
  Inv c st -> singleton_config st = Some c.
Proof.
  intros (m & Hh & Hi & _ & Hc & _).
  unfold singleton_config. rewrite Hi, Hh. simpl. congruence.
Qed.

Lemma run_session_ops (c : BrowserType * bool * Viewport) (ops : list Op) :
  forall st, Forall (fun op => session_op op = true) ops ->
             Inv c st -> Inv c (run ops st).
Proof.
  induction ops as [|op ops IH]; intros st Hops Hst; simpl; [exact Hst|].
  inversion Hops as [|? ? Hop Hrest]; subst.
  apply IH; [exact Hrest|].
  exact (proj1 (session_op_hoare c op Hop st Hst)).
Qed.

Lemma run_ops (vp : Viewport) (ops : list Op) :
  forall st, Inv (chromium, false, vp) st ->
             Inv (chromium, false, vp) (run ops st).
Proof.
  induction ops as [|op ops IH]; intros st Hst; simpl; [exact Hst|].
  apply IH. exact (proj1 (perform_hoare vp op st Hst)).
Qed.

Lemma first_construction_Inv (w : World) (kind : BrowserType) (hl : bool)
    (vp : Viewport) :
  Inv (kind, hl, vp) (snd (PlayWrightManager kind hl vp (empty_program w))).
Proof.
  rewrite first_construction. simpl.
  eexists. repeat split. left. reflexivity.
Qed.

Lemma module_import_Inv (w : World) :
  Inv (chromium, false, default_viewport) (snd (module_import w)).
Proof.
  unfold module_import, bind. rewrite first_construction. simpl.
  eexists. repeat split. right. reflexivity.
Qed.

Lemma close_returns_torn_down (s : Session) :
  fst (close s) = Ret tt -> torn_down (self (snd (close s))).
Proof.
  open_session s; unfold torn_down; simpl; ask_oracle;
    intro E; try discriminate E; repeat split.
Qed.

(** With the default configuration [browser_save_as_pdf] reaches its
    two assignments only after a [close] that returned. *)
Lemma pdf_prepare_tears_down (vp : Viewport) (st : Program) :
  Inv (chromium, false, vp) st ->
  forall r, fst (pdf_prepare st) = Ret r ->
            exists m, heap (snd (pdf_prepare st)) = [Built m] /\ torn_down m.
Proof.
  intros (m & Hh & Hi & Hini & Hc & Hg) r.
  destruct st as [h i g w]. simpl in *. subst h.
  destruct m as [ini k b v pw br cx pg]. unfold config in Hc. simpl in Hc.
  injection Hc as -> -> ->.
  unfold pdf_prepare, bind, global_manager, invoke, when. simpl.
  destruct Hg as [-> | ->]; simpl; [discriminate|].
  pose proof (close_returns_torn_down
                {| self := {| initialized := ini; browser_type := chromium;
                              headless := false; viewport := vp;
                              playwright := pw; browser := br;
                              context := cx; page := pg |};
                   env := w |}) as Ht.
  destruct (close _) as [[[] | e] s']; simpl in *; [| discriminate].
  intros _. exists (self s'). split; [reflexivity | exact (Ht eq_refl)].
Qed.

(** C5: whatever configuration the first construction stores, no
    sequence of constructions, [ensure_browser] and [close] calls changes
    it; in the module, where the first construction is the one of the
    import, no sequence of such operations and of tool invocations
    changes it; and [browser_save_as_pdf], the one handler that assigns
    to the configuration, does so there only on a session whose handles
    are all null. *)
Theorem configuration_fixed :
  (forall w kind hl vp ops,
     Forall (fun op => session_op op = true) ops ->
     singleton_config
       (run ops (snd (PlayWrightManager kind hl vp (empty_program w)))) =
       Some (kind, hl, vp)) /\
  (forall w ops,
     singleton_config (run ops (snd (module_import w))) =
       Some (chromium, false, default_viewport)) /\
  (forall w ops r,
     fst (pdf_prepare (run ops (snd (module_import w)))) = Ret r ->
     exists m,
       heap (snd (pdf_prepare (run ops (snd (module_import w))))) = [Built m] /\
       torn_down m).
Proof.
  split; [| split].
  - intros w kind hl vp ops Hops.
    apply Inv_singleton_config, run_session_ops;
      [exact Hops | apply first_construction_Inv].
  - intros w ops.
    apply Inv_singleton_config, run_ops, module_import_Inv.
  - intros w ops r.
    apply (pdf_prepare_tears_down default_viewport).
    apply run_ops, module_import_Inv.
Qed.

(** A run of the module in which the PDF tool works on a live session. *)
Lemma configuration_fixed_witness :
  singleton_config
    (run [ToolPage; ToolSaveAsPdf; ToolClose; ToolNavigate "https://example.org";
          OpConstruct firefox true {| width := 800; height := 600 |}]
         (snd (module_import {| oracle := always_ok; trace := [] |}))) =
    Some (chromium, false, default_viewport) /\
  singleton_config
    (run [OpEnsureBrowser; OpConstruct webkit false default_viewport; OpClose]
         (snd (PlayWrightManager firefox true {| width := 800; height := 600 |}
                 (empty_program {| oracle := always_ok; trace := [] |})))) =
    Some (firefox, true, {| width := 800; height := 600 |}).
Proof.
  split.
  - exact (proj1 (proj2 configuration_fixed) _ _).
  - apply (proj1 configuration_fixed). repeat constructor.
Defined.

(** ** Process clean-up *)

Lemma starts_with_spec (p : string) :
  forall s, starts_with p s = true <-> exists post, s = (p ++ post)%string.
Proof.
  induction p as [|a p IH]; intro s; simpl.
  - split; [intros _; exists s; reflexivity | reflexivity].
  - destruct s as [|b s].
    + split; [discriminate | intros [post E]; discriminate E].
    + rewrite andb_true_iff, Ascii.eqb_eq, IH. split.
      * intros [-> [post ->]]. exists post. reflexivity.
      * intros [post E]. injection E as -> ->. split; [reflexivity|].
        exists post. reflexivity.
Qed.

Lemma contains_spec (p : string) :
  forall s, contains p s = true <->
            exists pre post, s = (pre ++ p ++ post)%string.
Proof.
  induction s as [|b s IH]; simpl; rewrite orb_true_iff, starts_with_spec.
  - split.
    + intros [[post E] | E]; [| discriminate E].
      exists EmptyString, post. exact E.
    + intros [[|c pre] [post E]]; [| discriminate E].
      left. exists post. exact E.
  - rewrite IH. split.
    + intros [[post E] | [pre [post E]]].
      * exists EmptyString, post. exact E.
      * exists (String b pre), post. simpl. rewrite E. reflexivity.
    + intros [[|c pre] [post E]].
      * left. exists post. exact E.
      * right. simpl in E. injection E as -> ->. exists pre, post. reflexivity.
Qed.

Lemma lower_app (a b : string) :
  lower (a ++ b) = (lower a ++ lower b)%string.
Proof.
  induction a as [|c a IH]; simpl; [reflexivity | rewrite IH; reflexivity].
Qed.

Lemma lower_split (a : string) :
  forall s b, lower s = (a ++ b)%string ->
              exists s1 s2, s = (s1 ++ s2)%string /\ lower s1 = a /\ lower s2 = b.
Proof.
  induction a as [|c a IH]; intros s b E; simpl in E.
  - exists EmptyString, s. repeat split. exact E.
  - destruct s as [|d s]; simpl in E; [discriminate E|].
    injection E as Hc E. destruct (IH s b E) as (s1 & s2 & -> & H1 & H2).
    exists (String d s1), s2. simpl. rewrite Hc, H1. repeat split. exact H2.
Qed.

(** The test of the loop body on one attribute is the occurrence of the
    needle up to case. *)
Lemma mentions_spec (needle : string) (x : option string) :
  needle <> EmptyString ->
  (mentions needle x = true <->
   exists s, x = Some s /\ occurs_ignoring_case needle s).
Proof.
  intro Hne. unfold mentions, occurs_ignoring_case. destruct x as [s|].
  - rewrite andb_true_iff, negb_true_iff, String.eqb_neq, contains_spec. split.
    + intros [_ (pre & post & E)]. exists s. split; [reflexivity|].
      destruct (lower_split pre s _ E) as (s1 & s' & -> & H1 & E').
      destruct (lower_split needle s' _ E') as (s2 & s3 & -> & H2 & H3).
      exists s1, s2, s3. split; [reflexivity | exact H2].
    + intros (s' & Es & pre & mid & post & E & Hm). injection Es as <-.
      split.
      * intros ->. destruct pre; [| discriminate E].
        destruct mid; [| discriminate E]. apply Hne. symmetry. exact Hm.
      * exists (lower pre), (lower post). rewrite E, !lower_app, Hm.
        reflexivity.
  - split; [discriminate | intros (s & E & _); discriminate E].
Qed.

Lemma playwright_chrome_spec (p : Process) :
  playwright_chrome p = true <-> name_matches p /\ exe_matches p.
Proof.
  unfold playwright_chrome, name_matches, exe_matches.
  rewrite andb_true_iff, !mentions_spec by discriminate. reflexivity.
Qed.

Lemma kill_loop_sound (terminate : Process -> Terminated) (ps : list Process) :
  forall p, In p (fst (kill_loop terminate ps)) ->
            In p ps /\ playwright_chrome p = true.
Proof.
  induction ps as [|q ps IH]; simpl; intros p Hin; [contradiction|].
  destruct (playwright_chrome q) eqn:Hq.
  - destruct (terminate q); destruct (kill_loop terminate ps) as [l e];
      simpl in *;
      (destruct Hin as [<- | Hin];
       [split; [left; reflexivity | exact Hq]
       | try contradiction; destruct (IH p Hin);
         (split; [right|]; assumption)]).
  - destruct (IH p Hin). split; [right|]; assumption.
Qed.

Lemma kill_loop_complete (terminate : Process -> Terminated) (ps : list Process) :
  no_other_error terminate ->
  kill_loop terminate ps = (filter playwright_chrome ps, None).
Proof.
  intro Hno. induction ps as [|q ps IH]; simpl; [reflexivity|].
  destruct (playwright_chrome q); [| exact IH].
  rewrite IH. destruct (terminate q) eqn:E; try reflexivity.
  exfalso. exact (Hno q msg E).
Qed.

Lemma kill_all_signalled (terminate : Process -> Terminated) (ps : list Process) :
  fst (kill_all_chrome_instances terminate ps) = fst (kill_loop terminate ps).
Proof.
  unfold kill_all_chrome_instances.
  destruct (kill_loop terminate ps) as [l [msg|]]; reflexivity.
Qed.

(** C3: every process [kill_all_chrome_instances] sends a terminate
    signal to is a scanned process whose name contains "chrome" and whose
    executable path contains "playwright", both up to case; a process
    that fails one of the two conditions is sent none; and, as long as no
    [terminate()] raises an exception the loop does not catch, every
    scanned process meeting both conditions is sent one. *)
Theorem kill_targets_playwright_chrome (terminate : Process -> Terminated)
    (ps : list Process) :
  (forall p, In p (fst (kill_all_chrome_instances terminate ps)) ->
             In p ps /\ name_matches p /\ exe_matches p) /\
  (forall p, ~ (name_matches p /\ exe_matches p) ->
             ~ In p (fst (kill_all_chrome_instances terminate ps))) /\
  (no_other_error terminate ->
   forall p, In p ps -> name_matches p -> exe_matches p ->
             In p (fst (kill_all_chrome_instances terminate ps))).
Proof.
  rewrite kill_all_signalled.
  assert (Hs : forall p, In p (fst (kill_loop terminate ps)) ->
                         In p ps /\ name_matches p /\ exe_matches p).
  { intros p Hin. destruct (kill_loop_sound terminate ps p Hin) as [H1 H2].
    split; [exact H1 | apply playwright_chrome_spec; exact H2]. }
  split; [exact Hs | split].
  - intros p Hn Hin. apply Hn. exact (proj2 (Hs p Hin)).
  - intros Hno p Hin Hname Hexe.
    rewrite (kill_loop_complete terminate ps Hno). simpl.
    apply filter_In. split; [exact Hin|].
    apply playwright_chrome_spec. split; assumption.
Qed.

(** On a table with a system Chrome, a Chrome of Playwright, a Node of
    Playwright and a Chrome whose path cannot be read, only the Chrome of
    Playwright is sent a signal, even though every signal is refused. *)
Lemma kill_targets_playwright_chrome_witness :
  no_other_error denied /\
  In chrome_of_playwright process_table /\
  name_matches chrome_of_playwright /\ exe_matches chrome_of_playwright /\
  In chrome_of_playwright
     (fst (kill_all_chrome_instances denied process_table)) /\
  ~ In chrome_of_system (fst (kill_all_chrome_instances denied process_table)).
Proof.
  assert (Hno : no_other_error denied) by (intros q msg E; discriminate E).
  assert (Hin : In chrome_of_playwright process_table)
    by (right; left; reflexivity).
  assert (Hm : name_matches chrome_of_playwright /\ exe_matches chrome_of_playwright)
    by (apply playwright_chrome_spec; reflexivity).
  destruct Hm as [Hname Hexe].
  destruct (kill_targets_playwright_chrome denied process_table)
    as (_ & Hskip & Hall).
  repeat split; try assumption.
  - exact (Hall Hno chrome_of_playwright Hin Hname Hexe).
  - apply Hskip. intro H. apply playwright_chrome_spec in H. discriminate H.
Defined.

(** Outside the module's own runs: on a singleton first constructed as
    a headless [chromium], [browser_save_as_pdf] closes nothing and stores
    [headless = False] on the live session. *)
Remark pdf_on_headless_chromium :
  singleton_config headless_program = Some (chromium, true, default_viewport) /\
  singleton_config (snd (browser_save_as_pdf headless_program)) =
    Some (chromium, false, default_viewport) /\
  trace (world (snd (browser_save_as_pdf headless_program))) =
    trace (world headless_program).
Proof.
  repeat split.
Qed.

(** The teardown of a fully acquired session, every call returning:
    context, browser, engine, page. *)
Lemma close_teardown_order_witness :
  (forall n, oracle (env (acquired_session always_ok)) n = true) /\
  page (self (acquired_session always_ok)) <> Unset /\
  fst (close (acquired_session always_ok)) = Ret tt /\
  new_calls (acquired_session always_ok) (snd (close (acquired_session always_ok))) =
    [ContextClose 2; BrowserClose 1; EngineStop 0; PageClose 3].
Proof.
  assert (Hok : forall n, oracle (env (acquired_session always_ok)) n = true)
    by (intro n; reflexivity).
  assert (Hpg : page (self (acquired_session always_ok)) <> Unset)
    by (vm_compute; discriminate).
  pose proof (close_teardown_order (acquired_session always_ok)) as H.
  destruct (close (acquired_session always_ok)) as [o s'].
  destruct H as (_ & Hplan & Hret).
  split; [exact Hok | split; [exact Hpg |]].
  split; [exact (Hret Hok Hpg) | exact (Hplan (Hret Hok Hpg))].
Defined.

(** * Further properties of the session manager *)

(** X1: [ensure_browser] only ever creates: none of its calls closes or
    stops an object, and it makes at most four calls; [close] only ever
    closes or stops, in at most four calls. *)
Theorem acquisition_creates_teardown_closes (s : Session) :
  (Forall (fun c => is_creation c = true) (new_calls s (snd (ensure_browser s))) /\
   List.length (new_calls s (snd (ensure_browser s))) <= 4) /\
  (Forall (fun c => is_creation c = false) (new_calls s (snd (close s))) /\
   List.length (new_calls s (snd (close s))) <= 4).
Proof.
  split; open_session s; ask_oracle; calls_norm;
    (split; [repeat constructor | simpl; lia]).
Qed.

(** X2: [ensure_browser] never replaces what is stored.  A stored engine
    and a stored browser are kept; when a browser is stored, so are the
    stored context and the stored page; the configuration is never
    touched.  This holds whether the call returns or raises. *)
Theorem ensure_browser_keeps_stored_handles (s : Session) :
  let m := self s in
  let m' := self (snd (ensure_browser s)) in
  (forall e, playwright m = Some e -> playwright m' = Some e) /\
  (forall b, browser m = Some b ->
     browser m' = Some b /\
     (forall c, context m = Some c -> context m' = Some c) /\
     (forall p, page m = Val (Some p) -> page m' = Val (Some p))) /\
  config m' = config m.
Proof.
  open_session s; unfold config; simpl; ask_oracle;
    (split; [intros e E; try discriminate E; exact E |
     split; [intros b E; try discriminate E;
             (split; [exact E | split; intros x E'; try discriminate E'; exact E'])
            | reflexivity]]).
Qed.

(** X3: [ensure_browser] creates only what is missing: it starts the
    engine only when none is stored, launches a browser only when none is
    stored and then with the stored kind and headless flag, and opens a
    page only when it launched the browser or the page attribute is
    [None]. *)
Theorem ensure_browser_creates_missing_only (s : Session) :
  let calls := new_calls s (snd (ensure_browser s)) in
  (In EngineStart calls -> playwright (self s) = None) /\
  (forall e kind hl, In (BrowserLaunch e kind hl) calls ->
     browser (self s) = None /\ kind = browser_type (self s) /\
     hl = headless (self s)) /\
  (forall c, In (PageNew c) calls ->
     browser (self s) = None \/ page (self s) = Val None).
Proof.
  open_session s; ask_oracle; calls_norm;
    (split; [intro Hin; in_cases Hin; reflexivity |
     split; [intros e' k' h' Hin; in_cases Hin; injection Hin as <- <- <-;
             repeat split
            | intros c' Hin; in_cases Hin; auto]]).
Qed.

(** X4: on a manager with no engine and no browser, whatever its context
    and page attributes hold, an [ensure_browser] whose calls all return
    makes exactly four calls: it starts the engine, launches a browser of
    the stored kind with the stored headless flag, opens a context with
    the stored viewport and opens a page on it; the four new objects are
    stored and the new page is returned. *)
Theorem acquisition_from_scratch (m : Manager) (orc : nat -> bool)
    (tr : list Call) :
  playwright m = None -> browser m = None ->
  (forall i, i < 4 -> orc (List.length tr + i) = true) ->
  let n := List.length tr in
  ensure_browser {| self := m; env := {| oracle := orc; trace := tr |} |} =
    (Ret (Some (n + 3)),
     {| self := set_page (Some (n + 3))
                  (set_context (Some (n + 2))
                     (set_browser (Some (n + 1))
                        (set_playwright (Some n) m)));
        env := {| oracle := orc;
                  trace := tr ++ [EngineStart;
                                  BrowserLaunch n (browser_type m) (headless m);
                                  ContextNew (n + 1) (Some (viewport m));
                                  PageNew (n + 2)] |} |}).
Proof.
  intros Hpw Hbr Hok.
  destruct m as [ini kind hl vp pw br cx pg]. simpl in Hpw, Hbr. subst pw br.
  assert (H0 : orc (List.length tr) = true)
    by (rewrite <- (Nat.add_0_r (List.length tr)); apply Hok; lia).
  assert (H1 : orc (S (List.length tr)) = true)
    by (rewrite <- Nat.add_1_r; apply Hok; lia).
  assert (H2 : orc (S (S (List.length tr))) = true)
    by (replace (S (S (List.length tr))) with (List.length tr + 2) by lia;
        apply Hok; lia).
  assert (H3 : orc (S (S (S (List.length tr)))) = true)
    by (replace (S (S (S (List.length tr)))) with (List.length tr + 3) by lia;
        apply Hok; lia).
  unfold_method.
  rewrite H0. simpl. rewrite length_snoc, H1. simpl.
  rewrite !length_snoc, H2. simpl. rewrite !length_snoc, H3. simpl.
  rewrite <- !app_assoc. simpl.
  replace (List.length tr + 1) with (S (List.length tr)) by lia.
  replace (List.length tr + 2) with (S (S (List.length tr))) by lia.
  replace (List.length tr + 3) with (S (S (S (List.length tr)))) by lia.
  reflexivity.
Qed.

(** The first acquisition of the freshly constructed manager. *)
Lemma acquisition_from_scratch_witness :
  ensure_browser (start_session always_ok) =
    (Ret (Some 3),
     {| self := {| initialized := true; browser_type := chromium;
                   headless := false; viewport := default_viewport;
                   playwright := Some 0; browser := Some 1;
                   context := Some 2; page := Val (Some 3) |};
        env := {| oracle := always_ok;
                  trace := [EngineStart; BrowserLaunch 0 chromium false;
                            ContextNew 1 (Some default_viewport);
                            PageNew 2] |} |}).
Proof.
  exact (acquisition_from_scratch
           (init_attrs chromium false default_viewport Fresh) always_ok []
           eq_refl eq_refl (fun i _ => eq_refl)).
Defined.

(** X5: a [close] interrupted at [browser.close()] has already closed
    and nulled the context but still stores the browser and the page; the
    next [ensure_browser] then opens a new context on that browser, with
    default options, and returns the page that was stored before the
    [close], without opening a page on the new context. *)
Theorem stale_page_after_interrupted_close (m : Manager) (orc : nat -> bool)
    (tr : list Call) (e b c p : Handle) :
  playwright m = Some e -> browser m = Some b -> context m = Some c ->
  page m = Val (Some p) ->
  orc (List.length tr) = true ->
  orc (S (List.length tr)) = false ->
  orc (S (S (List.length tr))) = true ->
  let s := {| self := m; env := {| oracle := orc; trace := tr |} |} in
  let s1 := snd (close s) in
  let s2 := snd (ensure_browser s1) in
  fst (close s) = Raise (CallFailed (BrowserClose b)) /\
  fst (ensure_browser s1) = Ret (Some p) /\
  new_calls s s2 = [ContextClose c; BrowserClose b; ContextNew b None] /\
  context (self s2) = Some (S (S (List.length tr))) /\
  browser (self s2) = Some b.
Proof.
  intros Hpw Hbr Hcx Hpg H0 H1 H2.
  destruct m as [ini kind hl vp pw br cx pg]. simpl in Hpw, Hbr, Hcx, Hpg.
  subst pw br cx pg. unfold_method.
  rewrite H0. simpl. rewrite length_snoc, H1. simpl.
  rewrite !length_snoc, H2. simpl.
  calls_norm. repeat split.
Qed.

(** On the acquired session: [context.close()] is call 4,
    [browser.close()] call 5. *)
Lemma stale_page_after_interrupted_close_witness :
  fst (close (acquired_session (fails_at 5))) =
    Raise (CallFailed (BrowserClose 1)) /\
  fst (ensure_browser (snd (close (acquired_session (fails_at 5))))) =
    Ret (Some 3) /\
  context (self (snd (ensure_browser (snd (close (acquired_session (fails_at 5))))))) =
    Some 6.
Proof.
  destruct (stale_page_after_interrupted_close
              (self (acquired_session (fails_at 5))) (fails_at 5)
              (trace (env (acquired_session (fails_at 5)))) 0 1 2 3
              eq_refl eq_refl eq_refl eq_refl eq_refl eq_refl eq_refl)
    as (H1 & H2 & _ & H4 & _).
  split; [exact H1 | split; [exact H2 | exact H4]].
Defined.

(** X6: after [__init__] has run again on a manager, [close] can reach
    nothing but the page: whatever engine, browser and context the
    manager stored before, the only call [close] makes is [page.close()]
    on the old page, if there is one. *)
Theorem close_after_reconstruction (m : Manager) (kind : BrowserType)
    (hl : bool) (vp : Viewport) (w : World) :
  let s := {| self := init_attrs kind hl vp (Built m); env := w |} in
  new_calls s (snd (close s)) = step_of PageClose (page_handle m).
Proof.
  destruct m as [ini k h v pw br cx [|[p|]]], w as [orc tr];
    destruct ini; unfold page_handle; unfold_method;
    ask_oracle; calls_norm; reflexivity.
Qed.

(** * Runs of the tools *)

Lemma triple_bind {S A B : Type} (P : S -> Prop) (Q : A -> S -> Prop)
    (R : B -> S -> Prop) (E : S -> Prop) (m : ST S A) (k : A -> ST S B) :
  triple P m Q E -> (forall a, triple (Q a) (k a) R E) ->
  triple P (bind m k) R E.
Proof.
  intros Hm Hk st Hst. unfold bind. specialize (Hm st Hst).
  destruct (m st) as [[a | e] st1]; [exact (Hk a st1 Hm) | exact Hm].
Qed.

Lemma triple_weaken {S A : Type} (P P' : S -> Prop) (Q Q' : A -> S -> Prop)
    (E E' : S -> Prop) (m : ST S A) :
  triple P m Q E ->
  (forall st, P' st -> P st) ->
  (forall a st, Q a st -> Q' a st) ->
  (forall st, E st -> E' st) ->
  triple P' m Q' E'.
Proof.
  intros Hm HP HQ HE st Hst. specialize (Hm st (HP st Hst)).
  destruct (m st) as [[a | e] st1]; auto.
Qed.

Lemma ensure_browser_keeps_initialized (s : Session) :
  initialized (self s) = true ->
  initialized (self (snd (ensure_browser s))) = true.
Proof.
  intro H. exact (proj2 (ensure_browser_keeps_config (config (self s)) s eq_refl H)).
Qed.

Lemma close_keeps_initialized (s : Session) :
  initialized (self s) = true -> initialized (self (snd (close s))) = true.
Proof.
  intro H. exact (proj2 (close_keeps_config (config (self s)) s eq_refl H)).
Qed.

(** A method call on the singleton, for a method that keeps [I] and the
    guard of [__init__]. *)
Lemma invoke_bound {A : Type} (I : Session -> Prop) (meth : Method A) :
  (forall s, I s -> I (snd (meth s))) ->
  (forall s, initialized (self s) = true ->
             initialized (self (snd (meth s))) = true) ->
  triple (Bound I) (invoke 0 meth) (fun _ => Bound I) (Bound I).
Proof.
  intros HI Hini st (m & (Hh & Hi & Hm & HIm) & Hg).
  unfold invoke. rewrite Hh. simpl.
  specialize (HI _ HIm). specialize (Hini {| self := m; env := world st |} Hm).
  destruct (meth {| self := m; env := world st |}) as [o s']. simpl in *.
  assert (Hb : Bound I {| heap := [Built (self s')]; _instance := _instance st;
                          pw_manager := pw_manager st; world := env s' |}).
  { exists (self s'). repeat split; simpl; auto. destruct s'; exact HI. }
  destruct o; exact Hb.
Qed.

(** [close] on the singleton: when it returns, every handle is null. *)
Lemma invoke_close_bound (I : Session -> Prop) :
  tool_invariant I ->
  triple (Bound I) (invoke 0 close)
         (fun _ st => exists m, holds_manager I st m /\ torn_down m /\
                                pw_manager st = Some 0)
         (Bound I).
Proof.
  intros HI st (m & (Hh & Hi & Hm & HIm) & Hg).
  unfold invoke. rewrite Hh. simpl.
  pose proof (ti_close HI _ HIm) as HI'.
  pose proof (close_keeps_initialized {| self := m; env := world st |} Hm) as Hm'.
  pose proof (close_returns_torn_down {| self := m; env := world st |}) as Ht.
  destruct (close {| self := m; env := world st |}) as [o s']. simpl in *.
  assert (Hhold : holds_manager I
            {| heap := [Built (self s')]; _instance := _instance st;
               pw_manager := pw_manager st; world := env s' |} (self s')).
  { repeat split; simpl; auto. destruct s'; exact HI'. }
  destruct o as [[] | e].
  - exists (self s'). split; [exact Hhold | split; [exact (Ht eq_refl) | exact Hg]].
  - exists (self s'). split; [exact Hhold | exact Hg].
Qed.

Lemma reset_torn_down (m : Manager) :
  torn_down m ->
  set_context None (set_browser None (set_playwright None m)) = m.
Proof.
  destruct m as [ini k h v pw br cx pg]. unfold torn_down. simpl.
  intros (-> & -> & -> & _). reflexivity.
Qed.

(** The construction made by [browser_navigate] happens on a released
    singleton and leaves it as it is. *)
Lemma construct_released (I : Session -> Prop) (E : Program -> Prop)
    (kind : BrowserType) (hl : bool) (vp : Viewport) :
  triple (Released I) (PlayWrightManager kind hl vp)
         (fun r st => r = 0 /\ Released I st) E.
Proof.
  intros st (m & (Hh & Hi & Hm & HIm) & Hg & Ht).
  rewrite (construct_again st m kind hl vp Hh Hi Hm).
  rewrite (reset_torn_down m Ht).
  split; [reflexivity|]. exists m. repeat split; simpl; auto; apply Ht.
Qed.

Lemma bind_global_released (I : Session -> Prop) (E : Program -> Prop) :
  triple (Released I) (set_global (Some 0)) (fun _ => Bound I) E.
Proof.
  intros st (m & (Hh & Hi & Hm & HIm) & Hg & Ht). simpl.
  exists m. repeat split; simpl; auto.
Qed.

Lemma Bound_ToolInv (I : Session -> Prop) (st : Program) :
  Bound I st -> ToolInv I st.
Proof.
  intro H. left. exact H.
Qed.

Lemma Released_ToolInv (I : Session -> Prop) (st : Program) :
  Released I st -> ToolInv I st.
Proof.
  intro H. right. exact H.
Qed.

(** A tool that starts with an attribute access on the global. *)
Lemma global_manager_tool (I : Session -> Prop) :
  triple (ToolInv I) global_manager (fun r st => r = 0 /\ Bound I st) (ToolInv I).
Proof.
  intros st Hst. unfold global_manager.
  destruct Hst as [Hb | Hr].
  - pose proof Hb as (m & _ & Hg). rewrite Hg. split; [reflexivity | exact Hb].
  - pose proof Hr as (m & _ & Hg & _). rewrite Hg. right. exact Hr.
Qed.

Lemma triple_return {S A : Type} (P : S -> Prop) (Q : A -> S -> Prop)
    (E : S -> Prop) (a : A) :
  (forall st, P st -> Q a st) -> triple P (ret a) Q E.
Proof.
  intros H st Hst. exact (H st Hst).
Qed.

Lemma triple_or {S A : Type} (P1 P2 : S -> Prop) (Q : A -> S -> Prop)
    (E : S -> Prop) (m : ST S A) :
  triple P1 m Q E -> triple P2 m Q E ->
  triple (fun st => P1 st \/ P2 st) m Q E.
Proof.
  intros H1 H2 st [H | H]; [exact (H1 st H) | exact (H2 st H)].
Qed.

Lemma triple_pure {S A : Type} (phi : Prop) (P : S -> Prop)
    (Q : A -> S -> Prop) (E : S -> Prop) (m : ST S A) :
  (phi -> triple P m Q E) -> triple (fun st => phi /\ P st) m Q E.
Proof.
  intros H st [Hphi Hst]. exact (H Hphi st Hst).
Qed.

Lemma triple_when {S : Type} (P : S -> Prop) (E : S -> Prop) (b : bool)
    (m : ST S unit) :
  triple P m (fun _ => P) E -> triple P (when b m) (fun _ => P) E.
Proof.
  intro H. destruct b; simpl; [exact H | apply triple_return; auto].
Qed.

Lemma invoke_tool {A : Type} (I : Session -> Prop) (meth : Method A) :
  (forall s, I s -> I (snd (meth s))) ->
  (forall s, initialized (self s) = true ->
             initialized (self (snd (meth s))) = true) ->
  triple (Bound I) (invoke 0 meth) (fun _ => Bound I) (ToolInv I).
Proof.
  intros HI Hini.
  eapply triple_weaken;
    [exact (invoke_bound I meth HI Hini) | auto | auto | apply Bound_ToolInv].
Qed.

Lemma read_global_tool (I : Session -> Prop) (E : Program -> Prop) :
  triple (ToolInv I) (fun st => (Ret (pw_manager st), st))
         (fun g st => (g = Some 0 /\ Bound I st) \/ (g = None /\ Released I st))
         E.
Proof.
  intros st [Hb | Hr]; simpl.
  - left. split; [| exact Hb]. destruct Hb as (m & _ & Hg). exact Hg.
  - right. split; [| exact Hr]. destruct Hr as (m & _ & Hg & _). exact Hg.
Qed.

Section Tools.

Variable I : Session -> Prop.
Hypothesis HI : tool_invariant I.

Lemma ensure_browser_tool :
  triple (Bound I) (invoke 0 ensure_browser) (fun _ => Bound I) (ToolInv I).
Proof.
  apply invoke_tool;
    [exact (ti_ensure_browser HI) | exact ensure_browser_keeps_initialized].
Qed.

Lemma close_tool :
  triple (Bound I) (invoke 0 close) (fun _ => Bound I) (ToolInv I).
Proof.
  apply invoke_tool; [exact (ti_close HI) | exact close_keeps_initialized].
Qed.

Lemma read_tool {A : Type} (f : Manager -> A) :
  triple (Bound I) (invoke 0 (read f)) (fun _ => Bound I) (ToolInv I).
Proof.
  apply invoke_tool; intros [m w] H; exact H.
Qed.

Lemma browser_navigate_tool (url : string) :
  triple (ToolInv I) (browser_navigate url) (fun _ => ToolInv I) (ToolInv I).
Proof.
  unfold browser_navigate. destruct (String.eqb url "");
    [apply triple_return; auto|].
  eapply triple_bind; [apply read_global_tool|].
  intro g.
  apply triple_bind with (Q := fun r st => r = 0 /\ Bound I st).
  - apply triple_or; apply triple_pure; intros ->.
    + apply triple_return. auto.
    + apply triple_bind with (Q := fun r st => r = 0 /\ Released I st).
      * apply construct_released.
      * intro r. apply triple_pure. intros ->.
        apply triple_bind with (Q := fun _ => Bound I).
        -- apply bind_global_released.
        -- intros ?. apply triple_return. auto.
  - intro r. apply triple_pure. intros ->.
    eapply triple_bind; [apply ensure_browser_tool|].
    intros ?. apply triple_return. apply Bound_ToolInv.
Qed.

Lemma browser_close_tool :
  triple (ToolInv I) browser_close (fun _ => ToolInv I) (ToolInv I).
Proof.
  unfold browser_close.
  eapply triple_bind; [apply read_global_tool|].
  intro g. apply triple_or; apply triple_pure; intros ->.
  - eapply triple_bind.
    + eapply triple_weaken;
        [exact (invoke_close_bound I HI) | auto | intros a st H; exact H
        | apply Bound_ToolInv].
    + intros _ st (m & (Hh & Hi & Hm & HIm) & Ht & Hg). simpl.
      right. exists m. repeat split; simpl; auto; apply Ht.
  - apply triple_return. apply Released_ToolInv.
Qed.

Lemma pdf_prepare_tool :
  triple (ToolInv I) pdf_prepare (fun r st => r = 0 /\ Bound I st) (ToolInv I).
Proof.
  unfold pdf_prepare.
  eapply triple_bind; [apply global_manager_tool|].
  intro r. apply triple_pure. intros ->.
  eapply triple_bind; [apply read_tool|]. intro kind.
  eapply triple_bind; [apply read_tool|]. intro hl.
  eapply triple_bind; [apply triple_when; apply close_tool|].
  intros ?. apply triple_return. auto.
Qed.

Lemma browser_save_as_pdf_tool :
  triple (ToolInv I) browser_save_as_pdf (fun _ => ToolInv I) (ToolInv I).
Proof.
  unfold browser_save_as_pdf.
  eapply triple_bind; [apply pdf_prepare_tool|].
  intro r. apply triple_pure. intros ->.
  eapply triple_bind;
    [apply invoke_tool; [exact (ti_browser_type HI) | intros [m w] H; exact H]|].
  intros ?.
  eapply triple_bind;
    [apply invoke_tool; [exact (ti_headless HI) | intros [m w] H; exact H]|].
  intros ?.
  eapply triple_bind; [apply ensure_browser_tool|].
  intros ?. apply triple_return. apply Bound_ToolInv.
Qed.

Lemma page_handler_tool :
  triple (ToolInv I) page_handler (fun _ => ToolInv I) (ToolInv I).
Proof.
  unfold page_handler.
  eapply triple_bind; [apply global_manager_tool|].
  intro r. apply triple_pure. intros ->.
  eapply triple_bind; [apply ensure_browser_tool|].
  intros ?. apply triple_return. apply Bound_ToolInv.
Qed.

Lemma perform_tool (op : Op) :
  is_tool op = true ->
  triple (ToolInv I) (perform op) (fun _ => ToolInv I) (ToolInv I).
Proof.
  destruct op; simpl; intro E; try discriminate E.
  - apply browser_navigate_tool.
  - apply browser_close_tool.
  - apply browser_save_as_pdf_tool.
  - apply page_handler_tool.
  - apply triple_return. auto.
Qed.

Lemma run_tools (ops : list Op) :
  forall st, Forall (fun op => is_tool op = true) ops ->
             ToolInv I st -> ToolInv I (run ops st).
Proof.
  induction ops as [|op ops IH]; intros st Hops Hst; simpl; [exact Hst|].
  inversion Hops as [|? ? Hop Hrest]; subst.
  apply IH; [exact Hrest|].
  pose proof (perform_tool op Hop st Hst) as H.
  destruct (perform op st) as [[a | e] st1]; exact H.
Qed.

Lemma imported_Bound (orc : nat -> bool) :
  I (start_session orc) -> Bound I (imported orc).
Proof.
  intro H0. exists (init_attrs chromium false default_viewport Fresh).
  repeat split. exact H0.
Qed.

(** Every state the tools reach from the import. *)
Lemma tools_reach (orc : nat -> bool) (ops : list Op) :
  I (start_session orc) ->
  Forall (fun op => is_tool op = true) ops ->
  ToolInv I (run ops (imported orc)).
Proof.
  intros H0 Hops. apply run_tools; [exact Hops|].
  left. apply imported_Bound. exact H0.
Qed.

End Tools.

Section ToolLifecycle.

Variable I : Session -> Prop.
Hypothesis HI : tool_invariant I.

(** [browser_close] returns only with the global [None] and every
    handle null; when [close] raises, the global still refers to the
    manager. *)
Lemma browser_close_releases :
  triple (ToolInv I) browser_close (fun _ => Released I) (Bound I).
Proof.
  unfold browser_close.
  eapply triple_bind; [apply read_global_tool|].
  intro g. apply triple_or; apply triple_pure; intros ->.
  - eapply triple_bind; [exact (invoke_close_bound I HI)|].
    intros ? st (m & (Hh & Hi & Hm & HIm) & Ht & Hg). simpl.
    exists m. repeat split; simpl; auto; apply Ht.
  - apply triple_return. auto.
Qed.


End ToolLifecycle.

Lemma unconstrained_invariant : tool_invariant unconstrained.
Proof.
  split; intros; exact Logic.I.
Qed.



(** ** Launches and the default configuration *)

Ltac oracle_answers :=
  repeat match goal with
         | E : _ = true |- _ => rewrite E
         | E : _ = false |- _ => rewrite E
         end.

Lemma default_session_invariant : tool_invariant default_session.
Proof.
  split; intro s; unfold default_session.
  - open_session s; unfold config; simpl; ask_oracle;
      intros [Hc Hf]; injection Hc as -> -> ->;
      (split; [reflexivity |
               rewrite ?Forall_app; repeat split; auto;
               repeat constructor; simpl; auto]).
  - open_session s; unfold config; simpl; ask_oracle;
      intros [Hc Hf]; injection Hc as -> -> ->;
      (split; [reflexivity |
               rewrite ?Forall_app; repeat split; auto;
               repeat constructor; simpl; auto]).
  - destruct s as [[ini k h v pw br cx pg] w]. unfold config. simpl.
    intros [Hc Hf]. injection Hc as -> -> ->. split; [reflexivity | exact Hf].
  - destruct s as [[ini k h v pw br cx pg] w]. unfold config. simpl.
    intros [Hc Hf]. injection Hc as -> -> ->. split; [reflexivity | exact Hf].
Qed.

(** The world and the manager of a state the tools reach. *)
Lemma ToolInv_manager (I : Session -> Prop) (st : Program) :
  ToolInv I st ->
  exists m, heap st = [Built m] /\ I {| self := m; env := world st |} /\
            (pw_manager st = None -> torn_down m).
Proof.
  intros [(m & (Hh & _ & _ & HIm) & Hg) | (m & (Hh & _ & _ & HIm) & Hg & Ht)];
    exists m; (split; [exact Hh | split; [exact HIm |]]).
  - intro E. rewrite E in Hg. discriminate Hg.
  - intros _. exact Ht.
Qed.

(** X8: in every run of the tools from the import, every browser is
    launched as a [chromium] with [headless=False] and every context
    opened with a viewport gets the default 1920x1080 one; in particular
    [browser_save_as_pdf] never obtains a headless browser. *)
Theorem tools_launch_with_defaults (orc : nat -> bool) (ops : list Op) :
  Forall (fun op => is_tool op = true) ops ->
  Forall launch_default (trace (world (run ops (imported orc)))).
Proof.
  intro Hops.
  assert (H0 : default_session (start_session orc))
    by (split; [reflexivity | constructor]).
  destruct (ToolInv_manager default_session _
              (tools_reach default_session default_session_invariant orc ops
                 H0 Hops)) as (m & _ & [_ Hf] & _).
  exact Hf.
Qed.

(** A run with the PDF tool: both launches are headed [chromium]. *)
Lemma tools_launch_with_defaults_witness :
  Forall launch_default
    (trace (world (run [ToolPage; ToolSaveAsPdf] (imported always_ok)))) /\
  In (BrowserLaunch 8 chromium false)
    (trace (world (run [ToolPage; ToolSaveAsPdf] (imported always_ok)))).
Proof.
  split.
  - apply tools_launch_with_defaults. repeat constructor.
  - vm_compute. tauto.
Defined.

(** ** Engines and browsers running *)

Lemma returned_from_snoc (orc : nat -> bool) (tr : list Call) (c : Call) :
  forall i, returned_from orc i (tr ++ [c]) =
            returned_from orc i tr ++
            (if orc (i + List.length tr) then [c] else []).
Proof.
  induction tr as [|x tr IH]; intro i; simpl.
  - rewrite Nat.add_0_r, app_nil_r. reflexivity.
  - rewrite IH, <- app_assoc.
    replace (S i + List.length tr) with (i + S (List.length tr)) by lia.
    reflexivity.
Qed.

Ltac count_calls :=
  unfold balanced, returned, count, stored; simpl;
  intros [H1 H2];
  repeat (rewrite returned_from_snoc; simpl);
  oracle_answers;
  repeat rewrite filter_app; repeat rewrite length_app; simpl;
  lia.

Lemma balanced_invariant : tool_invariant balanced.
Proof.
  split; intro s.
  - open_session s; ask_oracle; count_calls.
  - open_session s; ask_oracle; count_calls.
  - destruct s as [[ini k h v pw br cx pg] w]. intro H. exact H.
  - destruct s as [[ini k h v pw br cx pg] w]. intro H. exact H.
Qed.

(** X9: when the tool calls are made one after the other, each one
    finished before the next starts (what [run] models), then after any
    number of them, counting the calls that returned, the starts of an
    engine are the stops plus one when an engine is stored and the stops
    otherwise, and likewise the launches and closes of a browser: such a
    run never has two engines or two browsers running, and none at all
    while the global is [None]. *)
Theorem tools_run_one_engine (orc : nat -> bool) (ops : list Op) :
  Forall (fun op => is_tool op = true) ops ->
  let st := run ops (imported orc) in
  (exists m, heap st = [Built m] /\
             balanced {| self := m; env := world st |}) /\
  engines_running (world st) <= 1 /\
  browsers_running (world st) <= 1 /\
  (pw_manager st = None ->
   engines_running (world st) = 0 /\ browsers_running (world st) = 0).
Proof.
  intro Hops.
  assert (H0 : balanced (start_session orc)) by (split; reflexivity).
  destruct (ToolInv_manager balanced _
              (tools_reach balanced balanced_invariant orc ops H0 Hops))
    as (m & Hh & [He Hb] & Hnone).
  simpl in He, Hb. unfold engines_running, browsers_running.
  assert (Hs : forall h, stored h <= 1)
    by (intros [x|]; unfold stored; simpl; lia).
  pose proof (Hs (playwright m)). pose proof (Hs (browser m)).
  split; [exists m; split; [exact Hh | split; assumption] |].
  split; [lia | split; [lia |]].
  intro Hg. destruct (Hnone Hg) as (Hp & Hbr & _).
  rewrite Hp in He. rewrite Hbr in Hb. unfold stored in He, Hb. simpl in He, Hb.
  split; lia.
Qed.

(** A run in which the engine refuses to stop once: it is still the one
    engine running afterwards. *)
Lemma tools_run_one_engine_witness :
  engines_running
    (world (run [ToolPage; ToolClose; ToolPage] (imported (fails_at 6)))) = 1 /\
  browsers_running
    (world (run [ToolPage; ToolClose; ToolPage] (imported (fails_at 6)))) = 1.
Proof.
  destruct (tools_run_one_engine (fails_at 6) [ToolPage; ToolClose; ToolPage])
    as ((m & Hh & He & Hb) & _).
  - repeat constructor.
  - vm_compute in Hh. injection Hh as <-.
    unfold engines_running, browsers_running.
    cbn [env self playwright browser stored truthy] in He, Hb.
    split; lia.
Defined.

(** X10: whatever is done after the import, constructions with any
    arguments included, there is exactly one manager object: it is the
    one [_instance] refers to, it has been initialised, and the global is
    either [None] or refers to it. *)
Theorem one_manager_object (w : World) (ops : list Op) :
  let st := run ops (snd (module_import w)) in
  exists m, heap st = [Built m] /\ _instance st = Some 0 /\
            initialized m = true /\
            (pw_manager st = None \/ pw_manager st = Some 0).
Proof.
  destruct (run_ops default_viewport ops _ (module_import_Inv w))
    as (m & Hh & Hi & Hm & _ & Hg).
  exists m. repeat split; assumption.
Qed.

(** * Further properties of the acquisition *)

(** X11: [ensure_browser] does not roll back.  When one of its calls
    raises, that call is the last one made, the objects obtained before
    it stay stored (the engine when the launch fails, the browser when
    the context cannot be opened, the context when the page cannot be
    opened) and the attributes of the later steps keep their values. *)
Theorem failed_acquisition_keeps_progress (s : Session) :
  let '(o, s') := ensure_browser s in
  forall c, o = Raise (CallFailed c) ->
    (exists pre, new_calls s s' = pre ++ [c]) /\
    left_by_failed (self s) (self s') c.
Proof.
  open_session s; ask_oracle; calls_norm;
    intros c' E; try discriminate E; injection E as <-;
    (split; [| simpl; repeat split]).
  all: first [ exists []; reflexivity | eexists [_]; reflexivity
             | eexists [_; _]; reflexivity | eexists [_; _; _]; reflexivity ].
Qed.

(** The first acquisition stopped at the launch: the engine is kept. *)
Lemma failed_acquisition_keeps_progress_witness :
  fst (ensure_browser (start_session (fails_at 1))) =
    Raise (CallFailed (BrowserLaunch 0 chromium false)) /\
  playwright (self (snd (ensure_browser (start_session (fails_at 1))))) = Some 0 /\
  browser (self (snd (ensure_browser (start_session (fails_at 1))))) = None.
Proof.
  pose proof (failed_acquisition_keeps_progress (start_session (fails_at 1))) as H.
  destruct (ensure_browser (start_session (fails_at 1))) as [o s'] eqn:E.
  assert (Ho : o = Raise (CallFailed (BrowserLaunch 0 chromium false)))
    by (vm_compute in E; injection E as <- _; reflexivity).
  destruct (H _ Ho) as (_ & Hpw & Hbr & _).
  split; [exact Ho | split; [exact Hpw | exact Hbr]].
Defined.

(** * Further properties of the process clean-up *)

(** X12: as long as no [terminate()] raises an exception other than
    the two caught in the loop, [kill_all_chrome_instances] signals the
    matching processes in scan order, each entry once, and returns the
    success message, also when every signal was refused or every process
    had already exited. *)
Theorem kill_reports_success (terminate : Process -> Terminated)
    (ps : list Process) :
  no_other_error terminate ->
  kill_all_chrome_instances terminate ps =
    (filter playwright_chrome ps,
     "All Chrome instances generated via Playwright have been terminated.").
Proof.
  intro Hno. unfold kill_all_chrome_instances.
  rewrite (kill_loop_complete terminate ps Hno). reflexivity.
Qed.

Lemma kill_reports_success_witness :
  kill_all_chrome_instances denied process_table =
    ([chrome_of_playwright],
     "All Chrome instances generated via Playwright have been terminated.").
Proof.
  exact (kill_reports_success denied process_table
           (fun q msg E => match E in (_ = t) return
                                match t with AccessDenied => True | _ => False end
                           with eq_refl => Logic.I end)).
Defined.

Lemma kill_loop_app (terminate : Process -> Terminated) (pre rest : list Process) :
  (forall q, In q pre -> playwright_chrome q = true ->
             forall m, terminate q <> OtherError m) ->
  kill_loop terminate (pre ++ rest) =
    (filter playwright_chrome pre ++ fst (kill_loop terminate rest),
     snd (kill_loop terminate rest)).
Proof.
  induction pre as [|q pre IH]; intro Hpre; simpl.
  - destruct (kill_loop terminate rest); reflexivity.
  - assert (IH' := IH (fun x Hx => Hpre x (or_intror Hx))).
    destruct (playwright_chrome q) eqn:Hq; [| exact IH'].
    rewrite IH'. pose proof (Hpre q (or_introl eq_refl) Hq) as Hno.
    destruct (terminate q) eqn:E; try reflexivity.
    exfalso. exact (Hno msg eq_refl).
Qed.

(** X13: the first [terminate()] that raises any other exception ends
    the sweep: the processes scanned before it and that one were
    signalled, the matching processes after it are not, and the message
    returned is the failure message with the text of the exception. *)
Theorem kill_stops_at_other_error (terminate : Process -> Terminated)
    (pre post : list Process) (p : Process) (msg : string) :
  playwright_chrome p = true ->
  terminate p = OtherError msg ->
  (forall q, In q pre -> playwright_chrome q = true ->
             forall m, terminate q <> OtherError m) ->
  kill_all_chrome_instances terminate (pre ++ p :: post) =
    (filter playwright_chrome pre ++ [p],
     ("Failed to kill Chrome instances: " ++ msg)%string).
Proof.
  intros Hp Ht Hpre. unfold kill_all_chrome_instances.
  rewrite (kill_loop_app terminate pre (p :: post) Hpre).
  simpl. rewrite Hp, Ht. reflexivity.
Qed.

(** The sweep stops at the first Chrome of Playwright; the second one
    is never signalled. *)
Lemma kill_stops_at_other_error_witness :
  kill_all_chrome_instances failing
    ([chrome_of_system] ++ chrome_of_playwright :: [other_chrome_of_playwright]) =
    ([chrome_of_playwright], "Failed to kill Chrome instances: OSError").
Proof.
  apply (kill_stops_at_other_error failing [chrome_of_system]
           [other_chrome_of_playwright] chrome_of_playwright "OSError").
  - reflexivity.
  - reflexivity.
  - intros q [<- | []] Hq. discriminate Hq.
Defined.

Lemma lower_empty (s : string) : lower s = EmptyString <-> s = EmptyString.
Proof.
  destruct s; simpl; split; intro E; try reflexivity; discriminate E.
Qed.

Lemma mentions_up_to_case (needle : string) (x y : option string) :
  option_map lower x = option_map lower y ->
  mentions needle x = mentions needle y.
Proof.
  destruct x as [s|], y as [t|]; simpl; intro E; try discriminate E;
    [| reflexivity].
  injection E as E. rewrite E. f_equal.
  destruct (String.eqb s "") eqn:Es, (String.eqb t "") eqn:Et; try reflexivity.
  - apply String.eqb_eq in Es. apply String.eqb_neq in Et. subst s.
    simpl in E. symmetry in E. apply (proj1 (lower_empty t)) in E.
    contradiction.
  - apply String.eqb_eq in Et. apply String.eqb_neq in Es. subst t.
    simpl in E. apply (proj1 (lower_empty s)) in E. contradiction.
Qed.

(** X14: the test of the sweep looks at nothing but the name and the
    path up to the case of their letters: two entries that agree on these
    are either both signalled or both left alone, whatever their pid. *)
Theorem sweep_test_ignores_case (p q : Process) :
  same_up_to_case p q -> playwright_chrome p = playwright_chrome q.
Proof.
  intros [Hn He]. unfold playwright_chrome.
  rewrite (mentions_up_to_case "chrome" _ _ Hn).
  rewrite (mentions_up_to_case "playwright" _ _ He). reflexivity.
Qed.

Lemma sweep_test_ignores_case_witness :
  playwright_chrome chrome_of_playwright =
  playwright_chrome
    {| pid := 7; name := Some "CHROME.EXE";
       exe := Some "c:\users\dev\appdata\local\MS-PLAYWRIGHT\chromium-1091\chrome-win\chrome.exe" |}.
Proof.
  apply sweep_test_ignores_case. split; reflexivity.
Defined.

(** * The selector of browser_find_by_xpath *)

Lemma starts_with_app (p s : string) : starts_with p (p ++ s) = true.
Proof.
  apply starts_with_spec. exists s. reflexivity.
Qed.

Lemma xpath_selector_kept (xpath : string) :
  starts_with "//" xpath = true \/ starts_with "xpath=" xpath = true ->
  xpath_selector xpath = xpath.
Proof.
  unfold xpath_selector. intros [H | H]; rewrite H;
    [| destruct (starts_with "//" xpath)]; reflexivity.
Qed.

Lemma xpath_selector_prefixed (xpath : string) :
  starts_with "//" xpath = false -> starts_with "xpath=" xpath = false ->
  xpath_selector xpath = ("xpath=" ++ xpath)%string.
Proof.
  unfold xpath_selector. intros -> ->. reflexivity.
Qed.

(** X15: the selector [browser_find_by_xpath] queries always starts
    with "//" or with "xpath="; it is the argument itself exactly when the
    argument already starts so, and the argument behind "xpath="
    otherwise; applying the rule twice changes nothing more. *)
Theorem xpath_selector_normal (xpath : string) :
  (starts_with "//" (xpath_selector xpath) = true \/
   starts_with "xpath=" (xpath_selector xpath) = true) /\
  (xpath_selector xpath = xpath <->
   starts_with "//" xpath = true \/ starts_with "xpath=" xpath = true) /\
  (xpath_selector xpath = xpath \/
   xpath_selector xpath = ("xpath=" ++ xpath)%string) /\
  xpath_selector (xpath_selector xpath) = xpath_selector xpath.
Proof.
  pose proof (starts_with_app "xpath=" xpath) as Hp.
  destruct (starts_with "//" xpath) eqn:E1.
  - assert (Hk : xpath_selector xpath = xpath)
      by (apply xpath_selector_kept; left; exact E1).
    rewrite !Hk. repeat split; auto.
  - destruct (starts_with "xpath=" xpath) eqn:E2.
    + assert (Hk : xpath_selector xpath = xpath)
        by (apply xpath_selector_kept; right; exact E2).
      rewrite !Hk. repeat split; auto.
    + rewrite !(xpath_selector_prefixed xpath E1 E2).
      split; [right; exact Hp|].
      split; [split; [intro E; rewrite E in Hp; rewrite Hp in E2; discriminate E2
                     | intros [H | H]; discriminate H] |].
      split; [right; reflexivity|].
      apply xpath_selector_kept. right. exact Hp.
Qed.

(** * Further properties of the tools *)

(** X16: when [close] raises inside [browser_close], the exception
    leaves the tool and the global still refers to the manager, so the
    other tools go on working on what is left of the session. *)
Theorem browser_close_failure_keeps_global (orc : nat -> bool) (ops : list Op)
    (e : Exn) :
  Forall (fun op => is_tool op = true) ops ->
  fst (browser_close (run ops (imported orc))) = Raise e ->
  pw_manager (snd (browser_close (run ops (imported orc)))) = Some 0.
Proof.
  intros Hops Hret.
  pose proof (browser_close_releases unconstrained unconstrained_invariant _
                (tools_reach unconstrained unconstrained_invariant orc ops
                   Logic.I Hops)) as Hc.
  destruct (browser_close (run ops (imported orc))) as [[[] | e'] st];
    simpl in *; [discriminate Hret|].
  destruct Hc as (m & _ & Hg). exact Hg.
Qed.

(** [browser_close] as the first tool call: [close] reads the missing
    page attribute. *)
Lemma browser_close_failure_keeps_global_witness :
  fst (browser_close (run [] (imported always_ok))) =
    Raise (AttributeError "page") /\
  pw_manager (snd (browser_close (run [] (imported always_ok)))) = Some 0.
Proof.
  assert (H : fst (browser_close (run [] (imported always_ok))) =
              Raise (AttributeError "page")) by reflexivity.
  split; [exact H|].
  exact (browser_close_failure_keeps_global always_ok [] _ (Forall_nil _) H).
Defined.




